(** * chain-selectors: the custom chain selector codec

    A shallow embedding of [custom_chains.go] (the direct-encoding
    generation, tag [0xE]) and of the parts of [evm.go] that dispatch to
    it.  A [uint64] is a [Z] in the range [0 <= x < 2^64]; the registry
    [evmChainIdToChainSelector] is a finite map keyed by chain id. *)

From Stdlib Require Import ZArith List Ascii String Lia.
From stdpp Require Import base gmap strings.

Local Open Scope Z_scope.

(** ** Machine integers *)

Definition is_uint64 (x : Z) : Prop := 0 <= x < 2 ^ 64.

Definition wrap32 (x : Z) : Z := x mod 2 ^ 32.

(** ** Results of fallible functions: Go's [(value, error)] pairs *)

(** One constructor per [fmt.Errorf] site of the package; [ErrExternal]
    stands for an error value produced outside this package. *)
Inductive error : Type :=
| ErrNotACustomSelector (selector : Z)
| ErrCouldNotReverse (selector : Z)
| ErrInvalidChainId (chainID family : string)
| ErrCustomChainsDisabled (chainID : Z)
| ErrSelectorNotFound (chainID : Z)
| ErrChainNameNotFound (chainID : Z)
| ErrExternal (msg : string).

Inductive result (A : Type) : Type :=
| Ok (a : A)
| Err (e : error).

Arguments Ok {A} a.
Arguments Err {A} e.

(** ** strconv: decimal rendering and parsing of a uint64 *)

Definition digit_char (d : Z) : ascii := ascii_of_N (48 + Z.to_N d).

(** [formatBits] writes the digits from the least significant one,
    prepending each to what is already written.  A uint64 has at most
    twenty decimal digits, which bounds the loop. *)
Fixpoint formatBits (fuel : nat) (u : Z) (acc : string) : string :=
  match fuel with
  | O => acc
  | S fuel' =>
      let acc' := String (digit_char (u mod 10)) acc in
      if u / 10 =? 0 then acc' else formatBits fuel' (u / 10) acc'
  end.

Definition FormatUint (u : Z) : string := formatBits 20 u EmptyString.

Definition digit_value (c : ascii) : option Z :=
  let n := Z.of_N (N_of_ascii c) in
  if (48 <=? n) && (n <=? 57) then Some (n - 48) else None.

(** [parseDigits] is the accumulation loop of [strconv.ParseUint] in base
    ten: a character that is not a digit, or a value that no longer fits
    in 64 bits, is an error. *)
Fixpoint parseDigits (s : string) (acc : Z) : option Z :=
  match s with
  | EmptyString => Some acc
  | String c rest =>
      match digit_value c with
      | None => None
      | Some d =>
          let acc' := acc * 10 + d in
          if acc' <? 2 ^ 64 then parseDigits rest acc' else None
      end
  end.

Definition ParseUint (s : string) : option Z :=
  match s with
  | EmptyString => None
  | _ => parseDigits s 0
  end.

(** ** fmt.Sprintf, restricted to the [%d] verb on uint64 arguments *)

Fixpoint Sprintf (format : string) (args : list Z) : string :=
  match format with
  | String "%" (String "d" rest) =>
      match args with
      | a :: args' => FormatUint a +:+ Sprintf rest args'
      | [] => "%!d(MISSING)" +:+ Sprintf rest []
      end
  | String c rest => String c (Sprintf rest args)
  | EmptyString => EmptyString
  end.

Definition Error (e : error) : string :=
  match e with
  | ErrNotACustomSelector s => Sprintf "not a custom selector: %d" [s]
  | ErrCouldNotReverse s =>
      Sprintf "could not reverse custom selector: %d (possibly hash-based)" [s]
  | ErrInvalidChainId c f => "invalid chain id " +:+ c +:+ " for " +:+ f
  | ErrCustomChainsDisabled c =>
      Sprintf "custom chain %d detected but ENABLE_CUSTOM_CHAINS is disabled" [c]
  | ErrSelectorNotFound c => Sprintf "chain selector not found for chain %d" [c]
  | ErrChainNameNotFound c => Sprintf "chain name not found for chain %d" [c]
  | ErrExternal msg => msg
  end.

(** ** crypto/sha256 *)

Module SHA256.

Definition rotr (n x : Z) : Z :=
  wrap32 (Z.lor (Z.shiftr x n) (Z.shiftl x (32 - n))).

Definition Ch (x y z : Z) : Z :=
  Z.lxor (Z.land x y) (Z.land (wrap32 (Z.lnot x)) z).
Definition Maj (x y z : Z) : Z :=
  Z.lxor (Z.lxor (Z.land x y) (Z.land x z)) (Z.land y z).
Definition Sigma0 (x : Z) : Z :=
  Z.lxor (Z.lxor (rotr 2 x) (rotr 13 x)) (rotr 22 x).
Definition Sigma1 (x : Z) : Z :=
  Z.lxor (Z.lxor (rotr 6 x) (rotr 11 x)) (rotr 25 x).
Definition sigma0 (x : Z) : Z :=
  Z.lxor (Z.lxor (rotr 7 x) (rotr 18 x)) (Z.shiftr x 3).
Definition sigma1 (x : Z) : Z :=
  Z.lxor (Z.lxor (rotr 17 x) (rotr 19 x)) (Z.shiftr x 10).

(** The constants of FIPS 180-4: the first 32 bits of the fractional
    parts of the cube roots (round constants) and of the square roots
    (initial hash value) of the first primes. *)
Definition is_prime (n : Z) : bool :=
  forallb (fun d => (n <? d * d) || negb (n mod d =? 0))
          (map Z.of_nat (seq 2 (Z.to_nat n - 2))).

Definition primes : list Z :=
  List.filter is_prime (map Z.of_nat (seq 2 310)).

(** Integer cube root, one bit at a time from bit [n - 1] down. *)
Fixpoint cbrt_bits (n : nat) (x r : Z) : Z :=
  match n with
  | O => r
  | S n' =>
      let r' := r + 2 ^ Z.of_nat n' in
      cbrt_bits n' x (if r' * r' * r' <=? x then r' else r)
  end.

Definition K : list Z :=
  Eval vm_compute in
    map (fun p => wrap32 (cbrt_bits 36 (p * 2 ^ 96) 0)) primes.

Definition init : list Z :=
  Eval vm_compute in
    map (fun p => wrap32 (Z.sqrt (p * 2 ^ 64))) (firstn 8 primes).

(** Big-endian bytes of [x], [n] of them. *)
Fixpoint be_bytes (n : nat) (x : Z) : list Z :=
  match n with
  | O => []
  | S n' => Z.land (Z.shiftr x (8 * Z.of_nat n')) 0xff :: be_bytes n' x
  end.

Definition be_word (bs : list Z) : Z :=
  fold_left (fun acc b => Z.lor (Z.shiftl acc 8) b) bs 0.

(** Padding: a [0x80] byte, zeros up to 56 modulo 64, the bit length. *)
Definition pad (msg : list Z) : list Z :=
  let len := Z.of_nat (length msg) in
  let zeros := Z.to_nat ((55 - len) mod 64) in
  msg ++ 0x80 :: repeat 0 zeros ++ be_bytes 8 (8 * len).

Fixpoint words (n : nat) (bs : list Z) : list Z :=
  match n with
  | O => []
  | S n' => be_word (firstn 4 bs) :: words n' (skipn 4 bs)
  end.

(** The sixty-four rounds.  [w] is the sliding window of the message
    schedule: its head is the word of the current round. *)
Fixpoint rounds (ks : list Z) (w : list Z) (st : list Z) : list Z :=
  match ks with
  | [] => st
  | k :: ks' =>
      let wt := nth 0 w 0 in
      let next := wrap32 (sigma1 (nth 14 w 0) + nth 9 w 0
                          + sigma0 (nth 1 w 0) + wt) in
      let a := nth 0 st 0 in let b := nth 1 st 0 in
      let c := nth 2 st 0 in let d := nth 3 st 0 in
      let e := nth 4 st 0 in let f := nth 5 st 0 in
      let g := nth 6 st 0 in let h := nth 7 st 0 in
      let t1 := wrap32 (h + Sigma1 e + Ch e f g + k + wt) in
      let t2 := wrap32 (Sigma0 a + Maj a b c) in
      rounds ks' (tl w ++ [next])
        [wrap32 (t1 + t2); a; b; c; wrap32 (d + t1); e; f; g]
  end.

Definition block (st : list Z) (chunk : list Z) : list Z :=
  map (fun p => wrap32 (fst p + snd p))
      (combine st (rounds K (words 16 chunk) st)).

Fixpoint blocks (n : nat) (st : list Z) (bs : list Z) : list Z :=
  match n with
  | O => st
  | S n' => blocks n' (block st (firstn 64 bs)) (skipn 64 bs)
  end.

Definition Sum256 (msg : list Z) : list Z :=
  let p := pad msg in
  flat_map (be_bytes 4) (blocks (length p / 64) init p).

End SHA256.

(** [[]byte(s)] *)
Definition bytes_of_string (s : string) : list Z :=
  map (fun c => Z.of_N (N_of_ascii c)) (list_ascii_of_string s).

(** [binary.BigEndian.Uint64] *)
Definition BigEndian_Uint64 (b : list Z) : Z := SHA256.be_word (firstn 8 b).

(** ** custom_chains.go: the codec *)

Definition CUSTOM_CHAIN_RANGE : Z := 1000000.

Definition generateCustomChainSelector (chainID : Z) : Z :=
  if chainID >? 0x0FFFFFFFFFFFFFFF then
    let hash :=
      SHA256.Sum256 (bytes_of_string (Sprintf "custom-testnet-chain-%d" [chainID])) in
    let selector := BigEndian_Uint64 (firstn 8 hash) in
    Z.lor 0xE000000000000000 (Z.land selector 0x0FFFFFFFFFFFFFFF)
  else
    Z.lor 0xE000000000000000 chainID.

Definition generateCustomChainName (chainID : Z) : string :=
  Sprintf "custom-testnet-%d" [chainID].

Definition isCustomSelector (selector : Z) : bool :=
  Z.land selector 0xF000000000000000 =? 0xE000000000000000.

Definition extractChainIdFromCustomSelector (selector : Z) : result Z :=
  if negb (isCustomSelector selector) then
    Err (ErrNotACustomSelector selector)
  else
    let chainID := Z.land selector 0x0FFFFFFFFFFFFFFF in
    if generateCustomChainSelector chainID =? selector then
      Ok chainID
    else
      Err (ErrCouldNotReverse selector).

(** ** evm.go and the resolver functions of custom_chains.go *)

Record ChainDetails : Type :=
  { ChainSelector : Z; ChainName : string }.

(** What the package writes to standard output with [fmt.Printf]. *)
Inductive event : Type :=
| PrintGenerated (name : string) (chainID selector : Z)
| PrintDisabled (chainID : Z)
| PrintRegistered (name : string) (chainID selector : Z).

Section Resolver.

(** The registry loaded at start-up, the process environment, and the
    family-agnostic lookup of [selectors.go] with its [FamilyEVM]
    constant. *)
Variable evmChainIdToChainSelector : gmap Z ChainDetails.
Variable Getenv : string -> string.
Variable GetChainDetailsByChainIDAndFamily :
  string -> string -> result ChainDetails.
Variable FamilyEVM : string.

Definition isInOfficialSelectors (chainID : Z) : bool :=
  match evmChainIdToChainSelector !! chainID with
  | Some _ => true
  | None => false
  end.

Definition isCustomChain (chainID : Z) : bool :=
  negb (isInOfficialSelectors chainID).

Definition customChainsEnabled : bool :=
  negb (String.eqb (Getenv "ENABLE_CUSTOM_CHAINS") "false").

Definition GetChainDetailsByChainIDAndFamilyWithCustom
    (chainID family : string) : list event * result ChainDetails :=
  match GetChainDetailsByChainIDAndFamily chainID family with
  | Ok details => ([], Ok details)
  | Err err =>
      if String.eqb family FamilyEVM then
        match ParseUint chainID with
        | None => ([], Err (ErrInvalidChainId chainID family))
        | Some evmChainId =>
            if isCustomChain evmChainId then
              let selector := generateCustomChainSelector evmChainId in
              let name := generateCustomChainName evmChainId in
              if customChainsEnabled then
                ([PrintGenerated name evmChainId selector],
                 Ok {| ChainSelector := selector; ChainName := name |})
              else
                ([PrintDisabled evmChainId], Err err)
            else ([], Err err)
        end
      else ([], Err err)
  end.

Definition RegisterCustomChain (chainID : Z) (name : string)
  : list event * Z :=
  let selector := generateCustomChainSelector chainID in
  ([PrintRegistered name chainID selector], selector).

Definition GetCustomChainSelector (chainID : Z) : list event * result Z :=
  match evmChainIdToChainSelector !! chainID with
  | Some details => ([], Ok (ChainSelector details))
  | None =>
      if isCustomChain chainID then
        if customChainsEnabled then
          let selector := generateCustomChainSelector chainID in
          let name := generateCustomChainName chainID in
          ([PrintGenerated name chainID selector], Ok selector)
        else
          ([], Err (ErrCustomChainsDisabled chainID))
      else ([], Err (ErrSelectorNotFound chainID))
  end.

Definition SelectorFromChainId (chainId : Z) : list event * result Z :=
  match evmChainIdToChainSelector !! chainId with
  | Some chainSelectorId => ([], Ok (ChainSelector chainSelectorId))
  | None => GetCustomChainSelector chainId
  end.

Definition NameFromChainId (chainId : Z) : result string :=
  match evmChainIdToChainSelector !! chainId with
  | None =>
      if isCustomChain chainId then Ok (generateCustomChainName chainId)
      else Err (ErrChainNameNotFound chainId)
  | Some details =>
      if String.eqb (ChainName details) "" then Ok (FormatUint chainId)
      else Ok (ChainName details)
  end.

End Resolver.

(** ** The superseded generation of the codec (tag [0xC], threshold) *)

Module Legacy.

Definition generateCustomChainSelector (chainID : Z) : Z :=
  let hash :=
    SHA256.Sum256 (bytes_of_string (Sprintf "custom-testnet-chain-%d" [chainID])) in
  let selector := BigEndian_Uint64 (firstn 8 hash) in
  Z.lor 0xC000000000000000 (Z.land selector 0x3FFFFFFFFFFFFFFF).

Definition isCustomSelector (selector : Z) : bool :=
  Z.land selector 0xC000000000000000 =? 0xC000000000000000.

Definition isCustomChain (evmChainIdToChainSelector : gmap Z ChainDetails)
    (chainID : Z) : bool :=
  (chainID >=? CUSTOM_CHAIN_RANGE)
  || negb (isInOfficialSelectors evmChainIdToChainSelector chainID).

(** The brute-force search of the superseded decoder.  [fuel] bounds the
    iterations of the loop; [None] is a loop that has not finished. *)
Fixpoint bruteForce (fuel : nat) (chainID selector : Z)
  : option (result Z) :=
  match fuel with
  | O => None
  | S fuel' =>
      if chainID <? 100000000 then
        if generateCustomChainSelector chainID =? selector then
          Some (Ok chainID)
        else bruteForce fuel' ((chainID + 1) mod 2 ^ 64) selector
      else Some (Err (ErrExternal
                        (Sprintf "could not reverse custom selector: %d"
                                 [selector])))
  end.

Definition extractChainIdFromCustomSelector (fuel : nat) (selector : Z)
  : option (result Z) :=
  if negb (isCustomSelector selector) then
    Some (Err (ErrNotACustomSelector selector))
  else bruteForce fuel 1000000 selector.

End Legacy.

(** The spec's "custom chains disabled" condition. *)
Definition is_custom_chains_disabled (e : error) : bool :=
  match e with
  | ErrCustomChainsDisabled _ => true
  | _ => false
  end.

(** ** Ranging over a map *)

(** Go visits the entries of a map in an order it does not specify.  A
    function that ranges over a map takes the visit as a list of entries;
    [range_order] says that the list is a visit of the map. *)
Definition range_order {A : Type} (visit : list (Z * A)) (m : gmap Z A)
  : Prop :=
  visit ≡ₚ map_to_list m.

(** ** evm.go: building the tables *)

(** [Chain] and the table [ALL] are declared in the generated part of the
    package; the fields are the ones [evm.go] fills in. *)
Record Chain : Type :=
  { EvmChainID : Z; Selector : Z; Name : string; VarName : string }.

Definition Chain_zero : Chain :=
  {| EvmChainID := 0; Selector := 0; Name := ""; VarName := "" |}.

(** [init]: the two tables are filled from [ALL], in its order. *)
Definition init (ALL : list Chain) : gmap Z Chain * gmap Z Chain :=
  fold_left
    (fun tables ch =>
       (<[Selector ch := ch]> (tables.1), <[EvmChainID ch := ch]> (tables.2)))
    ALL (∅, ∅).

Definition loadAllEVMSelectors
    (evmSelectorsMap evmTestSelectorsMap : list (Z * ChainDetails))
  : gmap Z ChainDetails :=
  let output :=
    fold_left (fun out kv => <[kv.1 := kv.2]> out) evmSelectorsMap ∅ in
  fold_left (fun out kv => <[kv.1 := kv.2]> out) evmTestSelectorsMap output.

Definition EvmChainIdToChainSelector (visit : list (Z * ChainDetails))
  : gmap Z Z :=
  fold_left (fun copyMap kv => <[kv.1 := ChainSelector kv.2]> copyMap)
            visit ∅.

Definition TestChainIds (evmTestSelectorsMap : list (Z * ChainDetails))
  : list Z :=
  fold_left (fun chainIds kv => chainIds ++ [kv.1]) evmTestSelectorsMap [].

(** ** evm.go and custom_chains.go: the remaining lookups *)

Section Lookups.

(** The registry and a visit of it, the tables of [init], the process
    environment, and the family-agnostic reverse lookup of
    [selectors.go].  The errors these functions make with [fmt.Errorf]
    are carried as their message. *)
Variable evmChainIdToChainSelector : gmap Z ChainDetails.
Variable visit : list (Z * ChainDetails).
Variable evmChainsBySelector : gmap Z Chain.
Variable evmChainsByEvmChainID : gmap Z Chain.
Variable Getenv : string -> string.
Variable GetChainIDFromSelector : Z -> result string.

Definition ChainIdFromSelector (chainSelectorId : Z) : result Z :=
  match List.find (fun kv => ChainSelector kv.2 =? chainSelectorId) visit with
  | Some kv => Ok kv.1
  | None =>
      if isCustomSelector chainSelectorId then
        extractChainIdFromCustomSelector chainSelectorId
      else
        Err (ErrExternal (Sprintf "chain not found for chain selector %d"
                                  [chainSelectorId]))
  end.

Definition ChainIdFromName (name : string) : result Z :=
  match List.find (fun kv => String.eqb (ChainName kv.2) name) visit with
  | Some kv => Ok kv.1
  | None =>
      let notFound := Err (ErrExternal ("chain not found for name " +:+ name)) in
      match ParseUint name with
      | Some chainId =>
          match evmChainIdToChainSelector !! chainId with
          | Some details =>
              if String.eqb (ChainName details) "" then Ok chainId
              else if isCustomChain evmChainIdToChainSelector chainId
                   then Ok chainId else notFound
          | None =>
              if isCustomChain evmChainIdToChainSelector chainId
              then Ok chainId else notFound
          end
      | None => notFound
      end
  end.

Definition ChainBySelector (sel : Z) : Chain * bool :=
  match evmChainsBySelector !! sel with
  | Some ch => (ch, true)
  | None =>
      if isCustomSelector sel then
        match extractChainIdFromCustomSelector sel with
        | Ok chainID =>
            ({| EvmChainID := chainID;
                Selector := sel;
                Name := generateCustomChainName chainID;
                VarName := Sprintf "CUSTOM_TESTNET_%d" [chainID] |}, true)
        | Err _ => (Chain_zero, false)
        end
      else (Chain_zero, false)
  end.

Definition ChainByEvmChainID (evmChainID : Z) : Chain * bool :=
  match evmChainsByEvmChainID !! evmChainID with
  | Some ch => (ch, true)
  | None =>
      if isCustomChain evmChainIdToChainSelector evmChainID then
        let selector := generateCustomChainSelector evmChainID in
        let name := generateCustomChainName evmChainID in
        ({| EvmChainID := evmChainID;
            Selector := selector;
            Name := name;
            VarName := Sprintf "CUSTOM_TESTNET_%d" [evmChainID] |}, true)
      else (Chain_zero, false)
  end.

Definition IsEvm (chainSel : Z) : result bool :=
  if negb (ChainBySelector chainSel).2 then
    if isCustomSelector chainSel then Ok true
    else Err (ErrExternal (Sprintf "chain %d not found" [chainSel]))
  else Ok true.

Definition GetChainIDFromSelectorWithCustom (selector : Z) : result string :=
  match GetChainIDFromSelector selector with
  | Ok chainID => Ok chainID
  | Err err =>
      if isCustomSelector selector then
        match extractChainIdFromCustomSelector selector with
        | Ok evmChainId => Ok (FormatUint evmChainId)
        | Err _ => Err err
        end
      else Err err
  end.

(** The second loop of [ListAllChains].  The counter is a uint64 and
    wraps; [fuel] bounds the iterations, [None] is a loop that has not
    finished. *)
Fixpoint customChainsInRange (fuel : nat) (chainID endChainID : Z)
    (chains : list ChainDetails) : option (list ChainDetails) :=
  match fuel with
  | O => None
  | S fuel' =>
      if chainID <=? endChainID then
        let chains' :=
          if isCustomChain evmChainIdToChainSelector chainID
             && negb (isInOfficialSelectors evmChainIdToChainSelector chainID)
          then
            let selector := generateCustomChainSelector chainID in
            let name := generateCustomChainName chainID in
            chains ++ [{| ChainSelector := selector; ChainName := name |}]
          else chains in
        customChainsInRange fuel' ((chainID + 1) mod 2 ^ 64) endChainID chains'
      else Some chains
  end.

Definition ListAllChains (fuel : nat) (startChainID endChainID : Z)
  : option (list ChainDetails) :=
  let chains :=
    fold_left
      (fun chains kv =>
         if (kv.1 >=? startChainID) && (kv.1 <=? endChainID)
         then chains ++ [kv.2] else chains)
      visit [] in
  if customChainsEnabled Getenv then
    customChainsInRange fuel startChainID endChainID chains
  else Some chains.

End Lookups.

(** ** Fixtures: a process with no registered chain, custom chains
    switched off, and a family lookup that knows no chain *)

Definition no_chains : gmap Z ChainDetails := ∅.

Definition env_custom_chains_off (name : string) : string :=
  if String.eqb name "ENABLE_CUSTOM_CHAINS" then "false" else "".

Definition lookup_unknown (chainID family : string) : result ChainDetails :=
  Err (ErrExternal ("unknown chain id " +:+ chainID +:+ " for " +:+ family)).

Definition mainnet_only : gmap Z ChainDetails :=
  {[ 1 := {| ChainSelector := 5009297550715157269;
             ChainName := "ethereum-mainnet" |} ]}.

Definition env_unset (name : string) : string := "".

(** * Properties *)

(** ** Test vectors for the hash and the decimal rendering *)

Example sha256_constants :
  length SHA256.K = 64%nat
  /\ nth 0 SHA256.K 0 = 0x428a2f98 /\ nth 63 SHA256.K 0 = 0xc67178f2
  /\ nth 0 SHA256.init 0 = 0x6a09e667 /\ nth 7 SHA256.init 0 = 0x5be0cd19.
Proof. repeat split. Qed.

Example sha256_abc :
  SHA256.be_word (SHA256.Sum256 (bytes_of_string "abc"))
  = 0xba7816bf8f01cfea414140de5dae2223b00361a396177a9cb410ff61f20015ad.
Proof. vm_compute. reflexivity. Qed.

Example sha256_empty :
  SHA256.be_word (SHA256.Sum256 [])
  = 0xe3b0c44298fc1c149afbf4c8996fb92427ae41e4649b934ca495991b7852b855.
Proof. vm_compute. reflexivity. Qed.

Example FormatUint_max : FormatUint (2 ^ 64 - 1) = "18446744073709551615"%string.
Proof. vm_compute. reflexivity. Qed.

Example ParseUint_overflow : ParseUint "18446744073709551616" = None.
Proof. vm_compute. reflexivity. Qed.

Example ParseUint_sign : ParseUint "+1" = None.
Proof. vm_compute. reflexivity. Qed.

(** ** Bit-level facts about the tag and the payload *)

Section Bits.

Lemma land_payload_mask (x : Z) :
  Z.land x 0x0FFFFFFFFFFFFFFF = x mod 2 ^ 60.
Proof.
  change 0x0FFFFFFFFFFFFFFF with (Z.ones 60).
  apply Z.land_ones. lia.
Qed.

Lemma land_tag_mask (x : Z) :
  Z.land x 0xF000000000000000 = 2 ^ 60 * ((x / 2 ^ 60) mod 16).
Proof.
  set (y := Z.land x 0xF000000000000000).
  assert (Hlow : y mod 2 ^ 60 = 0).
  { rewrite <- land_payload_mask. unfold y.
    rewrite <- Z.land_assoc.
    change (Z.land 0xF000000000000000 0x0FFFFFFFFFFFFFFF) with 0.
    apply Z.land_0_r. }
  assert (Hhigh : y / 2 ^ 60 = (x / 2 ^ 60) mod 16).
  { rewrite <- !Z.shiftr_div_pow2 by lia. unfold y.
    rewrite Z.shiftr_land.
    change (Z.shiftr 0xF000000000000000 60) with (Z.ones 4).
    rewrite Z.land_ones by lia. reflexivity. }
  rewrite <- Hhigh.
  pose proof (Z.div_mod y (2 ^ 60)). lia.
Qed.

Lemma lor_tag_payload (c : Z) :
  0 <= c < 2 ^ 60 ->
  Z.lor 0xE000000000000000 c = 0xE000000000000000 + c.
Proof.
  intros Hc. symmetry. apply Z.add_nocarry_lor.
  rewrite <- (Z.mod_small c (2 ^ 60)) by lia.
  rewrite <- land_payload_mask.
  rewrite (Z.land_comm c), Z.land_assoc.
  change (Z.land 0xE000000000000000 0x0FFFFFFFFFFFFFFF) with 0.
  apply Z.land_0_l.
Qed.

Lemma top_nibble_uint64 (s : Z) :
  is_uint64 s -> (s / 2 ^ 60) mod 16 = Z.shiftr s 60.
Proof.
  intros [Hlo Hhi]. rewrite Z.shiftr_div_pow2 by lia.
  apply Z.mod_small. split.
  - apply Z.div_pos; lia.
  - apply Z.div_lt_upper_bound; lia.
Qed.

End Bits.

(** ** The codec *)

Section Codec.

Lemma generate_direct (c : Z) :
  0 <= c <= 2 ^ 60 - 1 ->
  generateCustomChainSelector c = 0xE000000000000000 + c.
Proof.
  intros Hc. unfold generateCustomChainSelector.
  destruct (Z.gtb_spec c 0x0FFFFFFFFFFFFFFF) as [Hgt | _]; [lia |].
  apply lor_tag_payload. lia.
Qed.

(** On either path the selector is the tag plus a 60-bit payload. *)
Lemma generate_shape (c : Z) :
  0 <= c ->
  exists p, 0 <= p < 2 ^ 60
            /\ generateCustomChainSelector c = 0xE000000000000000 + p.
Proof.
  intros Hc. unfold generateCustomChainSelector.
  destruct (Z.gtb_spec c 0x0FFFFFFFFFFFFFFF) as [Hgt | Hle].
  - set (sel := BigEndian_Uint64 _).
    exists (Z.land sel 0x0FFFFFFFFFFFFFFF).
    assert (Hp : 0 <= Z.land sel 0x0FFFFFFFFFFFFFFF < 2 ^ 60).
    { rewrite land_payload_mask. apply Z.mod_pos_bound. lia. }
    split; [exact Hp | apply lor_tag_payload, Hp].
  - exists c. split; [lia | apply lor_tag_payload; lia].
Qed.

Lemma isCustomSelector_spec (s : Z) :
  isCustomSelector s = true <-> (s / 2 ^ 60) mod 16 = 0xE.
Proof.
  unfold isCustomSelector. rewrite Z.eqb_eq, land_tag_mask. lia.
Qed.

Lemma tagged_div (p : Z) :
  0 <= p < 2 ^ 60 -> (0xE000000000000000 + p) / 2 ^ 60 = 0xE.
Proof.
  intros Hp. symmetry. apply (Z.div_unique _ _ _ p); lia.
Qed.

Lemma tagged_mod (p : Z) :
  0 <= p < 2 ^ 60 -> (0xE000000000000000 + p) mod 2 ^ 60 = p.
Proof.
  intros Hp. symmetry. apply (Z.mod_unique _ _ 0xE); lia.
Qed.

Lemma isCustomSelector_tagged (p : Z) :
  0 <= p < 2 ^ 60 -> isCustomSelector (0xE000000000000000 + p) = true.
Proof.
  intros Hp. apply isCustomSelector_spec. now rewrite tagged_div.
Qed.

(** A tagged 64-bit selector is the tag plus its own low 60 bits. *)
Lemma tagged_decompose (s : Z) :
  is_uint64 s -> Z.shiftr s 60 = 0xE ->
  s = 0xE000000000000000 + s mod 2 ^ 60.
Proof.
  intros _ Hs. rewrite Z.shiftr_div_pow2 in Hs by lia.
  pose proof (Z.div_mod s (2 ^ 60)). lia.
Qed.

Lemma extract_tagged (s : Z) :
  is_uint64 s -> Z.shiftr s 60 = 0xE ->
  extractChainIdFromCustomSelector s = Ok (Z.land s 0x0FFFFFFFFFFFFFFF).
Proof.
  intros Hu Hs.
  pose proof (tagged_decompose s Hu Hs) as Hdec.
  assert (Hp : 0 <= s mod 2 ^ 60 < 2 ^ 60) by (apply Z.mod_pos_bound; lia).
  unfold extractChainIdFromCustomSelector.
  assert (Hc : isCustomSelector s = true).
  { rewrite Hdec. now apply isCustomSelector_tagged. }
  rewrite Hc. cbn [negb]. rewrite land_payload_mask.
  rewrite generate_direct by lia.
  rewrite <- Hdec, Z.eqb_refl. reflexivity.
Qed.

Lemma extract_untagged (s : Z) :
  isCustomSelector s = false ->
  extractChainIdFromCustomSelector s = Err (ErrNotACustomSelector s).
Proof.
  intros Hc. unfold extractChainIdFromCustomSelector. now rewrite Hc.
Qed.

(** Whatever was encoded, decoding returns the payload of the selector. *)
Lemma extract_generate (c : Z) :
  is_uint64 c ->
  extractChainIdFromCustomSelector (generateCustomChainSelector c)
  = Ok (generateCustomChainSelector c - 0xE000000000000000).
Proof.
  intros [Hlo _].
  destruct (generate_shape c Hlo) as (p & Hp & Hgen).
  rewrite Hgen. rewrite extract_tagged.
  - rewrite land_payload_mask, tagged_mod by exact Hp. f_equal. lia.
  - unfold is_uint64. lia.
  - rewrite Z.shiftr_div_pow2 by lia. now apply tagged_div.
Qed.

End Codec.

(** ** Claims about the codec *)

(** C1. Round trip on the direct range: for every chain id of at most
    [2^60 - 1], decoding the selector that encodes it succeeds and gives
    back exactly that chain id. *)
Theorem roundtrip_direct (chainID : Z) :
  0 <= chainID <= 2 ^ 60 - 1 ->
  extractChainIdFromCustomSelector (generateCustomChainSelector chainID)
  = Ok chainID.
Proof.
  intros Hc. rewrite extract_generate by (unfold is_uint64; lia).
  rewrite generate_direct by exact Hc. f_equal. lia.
Qed.

Lemma roundtrip_direct_witness :
  0 <= 1234567 <= 2 ^ 60 - 1
  /\ extractChainIdFromCustomSelector (generateCustomChainSelector 1234567)
     = Ok 1234567.
Proof. split; [lia | apply (roundtrip_direct 1234567); lia]. Defined.

(** The hash fallback is never rejected: the payload of the selector comes
    back as a chain id, and it is not the one that was encoded. *)
Lemma hash_fallback_not_rejected (chainID : Z) :
  is_uint64 chainID -> 2 ^ 60 - 1 < chainID ->
  exists c, extractChainIdFromCustomSelector (generateCustomChainSelector chainID)
            = Ok c /\ c <> chainID.
Proof.
  intros Hu Hbig. rewrite extract_generate by exact Hu.
  destruct Hu as [Hlo _].
  destruct (generate_shape chainID Hlo) as (p & Hp & Hgen).
  eexists. split; [reflexivity |]. lia.
Qed.

(** C2 (the code departs from it). Encoding the oversized chain id [2^60]
    takes the hash fallback; decoding that selector does not fail with
    [ErrCouldNotReverse] but returns the 60-bit hash payload, a chain id
    other than [2^60]. *)
Theorem hash_fallback_decodes_to_other_chain_id :
  generateCustomChainSelector (2 ^ 60) = 16183981139367287772
  /\ extractChainIdFromCustomSelector (generateCustomChainSelector (2 ^ 60))
     = Ok 43080074871430108
  /\ 43080074871430108 <> 2 ^ 60.
Proof. vm_compute. repeat split; congruence. Qed.

(** C4. On a 64-bit selector [isCustomSelector] holds exactly when the top
    four bits are the tag [0xE]; the predicate is a function of the
    selector alone, it takes no registry. *)
Theorem isCustomSelector_iff_top_nibble (selector : Z) :
  is_uint64 selector ->
  isCustomSelector selector = true <-> Z.shiftr selector 60 = 0xE.
Proof.
  intros Hu. rewrite isCustomSelector_spec.
  now rewrite top_nibble_uint64.
Qed.

Lemma isCustomSelector_iff_top_nibble_witness :
  is_uint64 0xD000000000000001
  /\ (isCustomSelector 0xD000000000000001 = true
      <-> Z.shiftr 0xD000000000000001 60 = 0xE).
Proof.
  assert (H : is_uint64 0xD000000000000001) by (unfold is_uint64; lia).
  split; [exact H | apply (isCustomSelector_iff_top_nibble _ H)].
Defined.

(** C5. A 64-bit selector whose top four bits are not the tag is refused
    at once with the not-a-custom-selector error; no chain id comes
    back. *)
Theorem extract_rejects_untagged (selector : Z) :
  is_uint64 selector -> Z.shiftr selector 60 <> 0xE ->
  extractChainIdFromCustomSelector selector
  = Err (ErrNotACustomSelector selector).
Proof.
  intros Hu Htop. apply extract_untagged.
  destruct (isCustomSelector selector) eqn:Hc; [| reflexivity].
  exfalso. apply Htop. now apply isCustomSelector_iff_top_nibble.
Qed.

Lemma extract_rejects_untagged_witness :
  is_uint64 5009297550715157269
  /\ Z.shiftr 5009297550715157269 60 <> 0xE
  /\ extractChainIdFromCustomSelector 5009297550715157269
     = Err (ErrNotACustomSelector 5009297550715157269).
Proof.
  assert (H : is_uint64 5009297550715157269) by (unfold is_uint64; lia).
  assert (H' : Z.shiftr 5009297550715157269 60 <> 0xE)
    by (vm_compute; congruence).
  split; [exact H | split; [exact H' | apply (extract_rejects_untagged _ H H')]].
Defined.

(** C6. For a chain id of at most [2^60 - 1] the selector is the tag
    OR-ed with the chain id: its top nibble is the tag, its low 60 bits
    are the chain id, and decoding returns the chain id.  At [9388201]
    this is the scenario of the spec. *)
Theorem direct_encoding_shape (chainID : Z) :
  0 <= chainID <= 2 ^ 60 - 1 ->
  generateCustomChainSelector chainID = Z.lor 0xE000000000000000 chainID
  /\ Z.shiftr (generateCustomChainSelector chainID) 60 = 0xE
  /\ Z.land (generateCustomChainSelector chainID) 0x0FFFFFFFFFFFFFFF = chainID
  /\ extractChainIdFromCustomSelector (generateCustomChainSelector chainID)
     = Ok chainID.
Proof.
  intros Hc. repeat split.
  - rewrite generate_direct by exact Hc. symmetry. apply lor_tag_payload. lia.
  - rewrite generate_direct by exact Hc.
    rewrite Z.shiftr_div_pow2 by lia. apply tagged_div. lia.
  - rewrite generate_direct by exact Hc.
    rewrite land_payload_mask. apply tagged_mod. lia.
  - now apply roundtrip_direct.
Qed.

Lemma direct_encoding_shape_witness :
  0 <= 9388201 <= 2 ^ 60 - 1
  /\ generateCustomChainSelector 9388201 = Z.lor 0xE000000000000000 9388201
  /\ Z.shiftr (generateCustomChainSelector 9388201) 60 = 0xE
  /\ Z.land (generateCustomChainSelector 9388201) 0x0FFFFFFFFFFFFFFF = 9388201
  /\ extractChainIdFromCustomSelector (generateCustomChainSelector 9388201)
     = Ok 9388201.
Proof. split; [lia | apply (direct_encoding_shape 9388201); lia]. Defined.

(** C7. Every selector the encoder returns, on the direct path and on the
    hash fallback alike, carries the tag in its top four bits and is
    recognised by [isCustomSelector]. *)
Theorem generated_selector_is_custom (chainID : Z) :
  is_uint64 chainID ->
  isCustomSelector (generateCustomChainSelector chainID) = true
  /\ Z.shiftr (generateCustomChainSelector chainID) 60 = 0xE
  /\ is_uint64 (generateCustomChainSelector chainID).
Proof.
  intros [Hlo _].
  destruct (generate_shape chainID Hlo) as (p & Hp & Hgen).
  rewrite Hgen. repeat split.
  - now apply isCustomSelector_tagged.
  - rewrite Z.shiftr_div_pow2 by lia. now apply tagged_div.
  - lia.
  - lia.
Qed.

Lemma generated_selector_is_custom_witness :
  is_uint64 (2 ^ 64 - 1)
  /\ isCustomSelector (generateCustomChainSelector (2 ^ 64 - 1)) = true
  /\ Z.shiftr (generateCustomChainSelector (2 ^ 64 - 1)) 60 = 0xE
  /\ is_uint64 (generateCustomChainSelector (2 ^ 64 - 1)).
Proof.
  assert (H : is_uint64 (2 ^ 64 - 1)) by (unfold is_uint64; lia).
  split; [exact H | apply (generated_selector_is_custom _ H)].
Defined.

(** C10. On a 64-bit selector that carries the tag, decoding always
    succeeds with the low 60 bits: re-encoding them gives the selector
    back, so the could-not-reverse branch is never taken and the only
    failure of the decoder is the missing tag. *)
Theorem extract_fails_only_on_missing_tag (selector : Z) :
  is_uint64 selector ->
  (Z.shiftr selector 60 = 0xE ->
   extractChainIdFromCustomSelector selector
   = Ok (Z.land selector 0x0FFFFFFFFFFFFFFF))
  /\ extractChainIdFromCustomSelector selector
     <> Err (ErrCouldNotReverse selector)
  /\ (forall e, extractChainIdFromCustomSelector selector = Err e ->
                e = ErrNotACustomSelector selector
                /\ Z.shiftr selector 60 <> 0xE).
Proof.
  intros Hu.
  destruct (Z.eq_dec (Z.shiftr selector 60) 0xE) as [Htop | Htop].
  - rewrite (extract_tagged selector Hu Htop).
    repeat split; intros; congruence.
  - rewrite (extract_rejects_untagged selector Hu Htop).
    repeat split; intros; congruence.
Qed.

Lemma extract_fails_only_on_missing_tag_witness :
  is_uint64 0xEFFFFFFFFFFFFFFF
  /\ extractChainIdFromCustomSelector 0xEFFFFFFFFFFFFFFF
     = Ok 0x0FFFFFFFFFFFFFFF.
Proof.
  assert (H : is_uint64 0xEFFFFFFFFFFFFFFF) by (unfold is_uint64; lia).
  split; [exact H |].
  apply (proj1 (extract_fails_only_on_missing_tag _ H)). reflexivity.
Defined.

(** ** Decimal rendering *)

Section Decimal.

Lemma append_cons (c : ascii) (s t : string) :
  String c s +:+ t = String c (s +:+ t).
Proof. reflexivity. Qed.

Lemma append_assoc (s t u : string) : (s +:+ t) +:+ u = s +:+ (t +:+ u).
Proof.
  induction s as [| c s IH]; [reflexivity |].
  now rewrite !append_cons, IH.
Qed.

Lemma append_empty_r (s : string) : s +:+ EmptyString = s.
Proof.
  induction s as [| c s IH]; [reflexivity |].
  now rewrite append_cons, IH.
Qed.

Lemma length_append (s t : string) :
  String.length (s +:+ t) = (String.length s + String.length t)%nat.
Proof.
  induction s as [| c s IH]; [reflexivity |].
  rewrite append_cons. cbn [String.length]. now rewrite IH.
Qed.

Lemma digit_value_char (d : Z) :
  0 <= d < 10 -> digit_value (digit_char d) = Some d.
Proof.
  intros Hd. unfold digit_value, digit_char.
  rewrite N_ascii_embedding by lia.
  replace (Z.of_N (48 + Z.to_N d)) with (48 + d) by lia.
  destruct (Z.leb_spec 48 (48 + d)); [| lia].
  destruct (Z.leb_spec (48 + d) 57); [| lia].
  cbn. f_equal. lia.
Qed.

Lemma digit_char_nonzero (d : Z) :
  0 < d < 10 -> digit_char d <> "0"%char.
Proof.
  intros Hd Heq.
  assert (H : digit_value (digit_char d) = Some 0) by now rewrite Heq.
  rewrite digit_value_char in H by lia. injection H. lia.
Qed.

Lemma parseDigits_step (c : ascii) (rest : string) (a d : Z) :
  digit_value c = Some d -> a * 10 + d < 2 ^ 64 ->
  parseDigits (String c rest) a = parseDigits rest (a * 10 + d).
Proof.
  intros Hc Hfit. cbn [parseDigits]. rewrite Hc.
  destruct (Z.ltb_spec (a * 10 + d) (2 ^ 64)); [reflexivity | lia].
Qed.

(** What [formatBits] prepends to the buffer: a non-empty run of digits
    that reads back, most significant first, as [u], and that has no
    leading zero unless [u] is zero. *)
Definition renders (ds : string) (u : Z) : Prop :=
  ds <> EmptyString
  /\ (forall a rest, 0 <= a ->
        a * 10 ^ Z.of_nat (String.length ds) + u < 2 ^ 64 ->
        parseDigits (ds +:+ rest) a
        = parseDigits rest (a * 10 ^ Z.of_nat (String.length ds) + u))
  /\ (0 < u -> exists c t, ds = String c t /\ c <> "0"%char).

Lemma formatBits_renders (fuel : nat) :
  forall u acc, (0 < fuel)%nat -> 0 <= u < 10 ^ Z.of_nat fuel ->
    exists ds, formatBits fuel u acc = ds +:+ acc /\ renders ds u.
Proof.
  induction fuel as [| fuel IH]; intros u acc Hfuel Hu; [lia |].
  cbn [formatBits].
  assert (Hd : 0 <= u mod 10 < 10) by (apply Z.mod_pos_bound; lia).
  pose proof (Z.div_mod u 10 ltac:(lia)) as Hdm.
  destruct (Z.eqb_spec (u / 10) 0) as [Hq | Hq].
  - exists (String (digit_char (u mod 10)) EmptyString).
    split; [reflexivity |]. repeat split.
    + discriminate.
    + intros a rest Ha Hfit. cbn [String.length] in *.
      change (10 ^ Z.of_nat 1) with 10 in *.
      change (String ?c EmptyString +:+ rest) with (String c rest).
      rewrite (parseDigits_step _ _ a (u mod 10)) by
        (try apply digit_value_char; lia).
      f_equal. lia.
    + intros Hpos. eexists _, _. split; [reflexivity |].
      apply digit_char_nonzero. lia.
  - assert (Hqpos : 0 < u / 10) by (pose proof (Z.div_pos u 10); lia).
    assert (Hqhi : u / 10 < 10 ^ Z.of_nat fuel).
    { apply Z.div_lt_upper_bound; [lia |].
      rewrite Nat2Z.inj_succ, Z.pow_succ_r in Hu by lia. lia. }
    assert (Hfuel' : (0 < fuel)%nat).
    { destruct fuel; [cbn in Hqhi; lia | lia]. }
    destruct (IH (u / 10) (String (digit_char (u mod 10)) acc) Hfuel'
                ltac:(lia)) as (ds & Hfmt & Hne & Hparse & Hlead).
    exists (ds +:+ String (digit_char (u mod 10)) EmptyString).
    split; [now rewrite Hfmt, append_assoc |]. repeat split.
    + destruct ds; [congruence | discriminate].
    + intros a rest Ha Hfit.
      rewrite length_append in *. cbn [String.length] in *.
      replace (Z.of_nat (String.length ds + 1))
        with (Z.succ (Z.of_nat (String.length ds))) in * by lia.
      rewrite Z.pow_succ_r in * by lia.
      set (n := 10 ^ Z.of_nat (String.length ds)) in *.
      assert (Hn : 0 < n) by (apply Z.pow_pos_nonneg; lia).
      rewrite append_assoc.
      change (String ?c EmptyString +:+ rest) with (String c rest).
      rewrite Hparse by nia.
      rewrite (parseDigits_step _ _ _ (u mod 10)) by
        (try apply digit_value_char; nia).
      f_equal. nia.
    + intros _. destruct (Hlead Hqpos) as (c & t & -> & Hc).
      eexists _, _. split; [reflexivity | exact Hc].
Qed.

Lemma uint64_twenty_digits (u : Z) : is_uint64 u -> 0 <= u < 10 ^ Z.of_nat 20.
Proof. unfold is_uint64. intros Hu. split; [lia |]. cbn. lia. Qed.

Lemma FormatUint_renders (u : Z) : is_uint64 u -> renders (FormatUint u) u.
Proof.
  intros Hu.
  destruct (formatBits_renders 20 u EmptyString ltac:(lia)
              (uint64_twenty_digits u Hu)) as (ds & Hfmt & Hr).
  unfold FormatUint. rewrite Hfmt.
  now rewrite append_empty_r.
Qed.

Lemma ParseUint_FormatUint (u : Z) :
  is_uint64 u -> ParseUint (FormatUint u) = Some u.
Proof.
  intros Hu. destruct (FormatUint_renders u Hu) as (Hne & Hparse & _).
  specialize (Hparse 0 EmptyString ltac:(lia)).
  rewrite append_empty_r in Hparse.
  unfold ParseUint. destruct (FormatUint u) eqn:E; [congruence |].
  rewrite Hparse by (unfold is_uint64 in Hu; lia).
  reflexivity.
Qed.

End Decimal.

(** C9. The name of a custom chain is the fixed prefix followed by the
    decimal rendering of the chain id: digits that parse back to the chain
    id, with no leading zero.  The function returns a string, it has no
    error result. *)
Theorem generateCustomChainName_decimal (chainID : Z) :
  is_uint64 chainID ->
  generateCustomChainName chainID = "custom-testnet-" +:+ FormatUint chainID
  /\ ParseUint (FormatUint chainID) = Some chainID
  /\ (chainID = 0
      \/ exists c t, FormatUint chainID = String c t /\ c <> "0"%char).
Proof.
  intros Hu. repeat split.
  - unfold generateCustomChainName. cbn [Sprintf].
    now rewrite append_empty_r.
  - now apply ParseUint_FormatUint.
  - destruct (FormatUint_renders chainID Hu) as (_ & _ & Hlead).
    destruct (Z.eq_dec chainID 0) as [-> | Hnz]; [now left | right].
    apply Hlead. unfold is_uint64 in Hu. lia.
Qed.

Lemma generateCustomChainName_decimal_witness :
  is_uint64 9250445
  /\ generateCustomChainName 9250445 = "custom-testnet-9250445"%string.
Proof.
  assert (H : is_uint64 9250445) by (unfold is_uint64; lia).
  split; [exact H |].
  exact (proj1 (generateCustomChainName_decimal 9250445 H)).
Defined.

(** ** Classification and the resolver *)

(** C3. A chain id is custom exactly when the registry has no entry for
    it; nothing else, and no numeric threshold, enters the decision. *)
Theorem isCustomChain_iff_unregistered
    (evmChainIdToChainSelector : gmap Z ChainDetails) (chainID : Z) :
  isCustomChain evmChainIdToChainSelector chainID = true
  <-> evmChainIdToChainSelector !! chainID = None.
Proof.
  unfold isCustomChain, isInOfficialSelectors.
  destruct (evmChainIdToChainSelector !! chainID); cbn; split; congruence.
Qed.

Example small_unregistered_is_custom : isCustomChain no_chains 1 = true.
Proof. reflexivity. Qed.

Example large_registered_is_not_custom (details : ChainDetails) :
  isCustomChain (<[2 ^ 63 := details]> no_chains) (2 ^ 63) = false.
Proof.
  unfold isCustomChain, isInOfficialSelectors.
  now rewrite lookup_insert_eq.
Qed.

(** The superseded generation did look at a threshold, and at two bits
    only. *)
Example legacy_registered_above_range_is_custom (details : ChainDetails) :
  Legacy.isCustomChain (<[CUSTOM_CHAIN_RANGE := details]> no_chains)
    CUSTOM_CHAIN_RANGE = true.
Proof. reflexivity. Qed.

Example legacy_selector_accepts_other_nibble :
  Legacy.isCustomSelector 0xD000000000000000 = true
  /\ isCustomSelector 0xD000000000000000 = false.
Proof. split; reflexivity. Qed.

(** [NameFromChainId] does not read the environment: an unregistered
    chain id gets its generated name whatever the flag says. *)
Lemma NameFromChainId_unregistered
    (evmChainIdToChainSelector : gmap Z ChainDetails) (chainId : Z) :
  evmChainIdToChainSelector !! chainId = None ->
  NameFromChainId evmChainIdToChainSelector chainId
  = Ok (generateCustomChainName chainId).
Proof.
  intros Hnone. unfold NameFromChainId, isCustomChain, isInOfficialSelectors.
  now rewrite Hnone.
Qed.

Section Disabled.

Variable evmChainIdToChainSelector : gmap Z ChainDetails.
Variable Getenv : string -> string.
Variable GetChainDetailsByChainIDAndFamily :
  string -> string -> result ChainDetails.
Variable FamilyEVM : string.

Hypothesis flag_off : Getenv "ENABLE_CUSTOM_CHAINS" = "false"%string.

Lemma customChainsEnabled_off : customChainsEnabled Getenv = false.
Proof. unfold customChainsEnabled. now rewrite flag_off. Qed.

Lemma GetCustomChainSelector_off (chainID : Z) :
  evmChainIdToChainSelector !! chainID = None ->
  GetCustomChainSelector evmChainIdToChainSelector Getenv chainID
  = ([], Err (ErrCustomChainsDisabled chainID)).
Proof.
  intros Hnone.
  unfold GetCustomChainSelector, isCustomChain, isInOfficialSelectors.
  now rewrite Hnone, customChainsEnabled_off.
Qed.

Lemma SelectorFromChainId_off (chainID : Z) :
  evmChainIdToChainSelector !! chainID = None ->
  SelectorFromChainId evmChainIdToChainSelector Getenv chainID
  = ([], Err (ErrCustomChainsDisabled chainID)).
Proof.
  intros Hnone. unfold SelectorFromChainId. rewrite Hnone.
  now apply GetCustomChainSelector_off.
Qed.

Lemma WithCustom_off (chainID family : string) (evmChainId : Z)
    (err : error) :
  GetChainDetailsByChainIDAndFamily chainID family = Err err ->
  family = FamilyEVM ->
  ParseUint chainID = Some evmChainId ->
  evmChainIdToChainSelector !! evmChainId = None ->
  GetChainDetailsByChainIDAndFamilyWithCustom evmChainIdToChainSelector
    Getenv GetChainDetailsByChainIDAndFamily FamilyEVM chainID family
  = ([PrintDisabled evmChainId], Err err).
Proof.
  intros Hstd -> Hparse Hnone.
  unfold GetChainDetailsByChainIDAndFamilyWithCustom.
  rewrite Hstd, String.eqb_refl, Hparse.
  unfold isCustomChain, isInOfficialSelectors.
  now rewrite Hnone, customChainsEnabled_off.
Qed.

End Disabled.

(** Where the flag is read.  With [ENABLE_CUSTOM_CHAINS] set to ["false"]
    and a chain id the registry does not know, [GetCustomChainSelector]
    and [SelectorFromChainId] fail with the custom-chains-disabled error
    and generate nothing; [GetChainDetailsByChainIDAndFamilyWithCustom],
    once the family lookup has failed on an EVM chain id, returns no
    generated details either: it prints the warning and hands back
    whatever error the family lookup gave. *)
Theorem disabled_flag_refuses_generation
    (evmChainIdToChainSelector : gmap Z ChainDetails)
    (Getenv : string -> string)
    (GetChainDetailsByChainIDAndFamily : string -> string -> result ChainDetails)
    (FamilyEVM chainID : string) (evmChainId : Z) (err : error) :
  Getenv "ENABLE_CUSTOM_CHAINS" = "false"%string ->
  evmChainIdToChainSelector !! evmChainId = None ->
  ParseUint chainID = Some evmChainId ->
  GetChainDetailsByChainIDAndFamily chainID FamilyEVM = Err err ->
  GetCustomChainSelector evmChainIdToChainSelector Getenv evmChainId
  = ([], Err (ErrCustomChainsDisabled evmChainId))
  /\ SelectorFromChainId evmChainIdToChainSelector Getenv evmChainId
     = ([], Err (ErrCustomChainsDisabled evmChainId))
  /\ GetChainDetailsByChainIDAndFamilyWithCustom evmChainIdToChainSelector
       Getenv GetChainDetailsByChainIDAndFamily FamilyEVM chainID FamilyEVM
     = ([PrintDisabled evmChainId], Err err).
Proof.
  intros Hoff Hnone Hparse Hstd. repeat split.
  - now apply GetCustomChainSelector_off.
  - now apply SelectorFromChainId_off.
  - now apply WithCustom_off.
Qed.

Lemma disabled_flag_refuses_generation_witness :
  env_custom_chains_off "ENABLE_CUSTOM_CHAINS" = "false"%string
  /\ no_chains !! 9388201 = None
  /\ ParseUint "9388201" = Some 9388201
  /\ GetCustomChainSelector no_chains env_custom_chains_off 9388201
     = ([], Err (ErrCustomChainsDisabled 9388201))
  /\ SelectorFromChainId no_chains env_custom_chains_off 9388201
     = ([], Err (ErrCustomChainsDisabled 9388201))
  /\ GetChainDetailsByChainIDAndFamilyWithCustom no_chains
       env_custom_chains_off lookup_unknown "evm" "9388201" "evm"
     = ([PrintDisabled 9388201],
        Err (ErrExternal "unknown chain id 9388201 for evm")).
Proof.
  assert (Hoff : env_custom_chains_off "ENABLE_CUSTOM_CHAINS" = "false"%string)
    by reflexivity.
  assert (Hnone : no_chains !! 9388201 = None) by reflexivity.
  assert (Hparse : ParseUint "9388201" = Some 9388201) by reflexivity.
  repeat (split; [assumption |]).
  apply (disabled_flag_refuses_generation no_chains env_custom_chains_off
           lookup_unknown "evm" "9388201" 9388201 _ Hoff Hnone Hparse).
  reflexivity.
Defined.

(** C8 (the code departs from it). With [ENABLE_CUSTOM_CHAINS] set to
    ["false"] and chain id [9388201] not registered,
    [GetCustomChainSelector] and [SelectorFromChainId] refuse it with the
    custom-chains-disabled error, but [NameFromChainId], which never
    reads the flag, resolves the same chain id to its generated name, and
    so does [ChainByEvmChainID] with a chain made up for it. *)
Theorem disabled_flag_ignored_by_name_lookup :
  env_custom_chains_off "ENABLE_CUSTOM_CHAINS" = "false"%string
  /\ no_chains !! 9388201 = None
  /\ GetCustomChainSelector no_chains env_custom_chains_off 9388201
     = ([], Err (ErrCustomChainsDisabled 9388201))
  /\ SelectorFromChainId no_chains env_custom_chains_off 9388201
     = ([], Err (ErrCustomChainsDisabled 9388201))
  /\ NameFromChainId no_chains 9388201 = Ok "custom-testnet-9388201"%string
  /\ ChainByEvmChainID no_chains ∅ 9388201
     = ({| EvmChainID := 9388201;
           Selector := 16140901064505245865;
           Name := "custom-testnet-9388201";
           VarName := "CUSTOM_TESTNET_9388201" |}, true).
Proof. repeat split; vm_compute; reflexivity. Qed.

(** * Further properties of the package *)

(** ** The codec beyond the round trip *)

Section CodecMore.

(** The direct path is injective. *)
Theorem generate_direct_injective (c1 c2 : Z) :
  0 <= c1 <= 2 ^ 60 - 1 -> 0 <= c2 <= 2 ^ 60 - 1 ->
  generateCustomChainSelector c1 = generateCustomChainSelector c2 ->
  c1 = c2.
Proof.
  intros H1 H2. rewrite !generate_direct by assumption. lia.
Qed.

Lemma generate_direct_injective_witness :
  0 <= 9388201 <= 2 ^ 60 - 1
  /\ generateCustomChainSelector 9388201 = generateCustomChainSelector 9388201
  /\ 9388201 = 9388201.
Proof.
  assert (H : 0 <= 9388201 <= 2 ^ 60 - 1) by lia.
  split; [exact H |]. split; [reflexivity |].
  exact (generate_direct_injective 9388201 9388201 H H eq_refl).
Defined.

(** Over all of uint64 the encoder is not injective: the selector of an
    oversized chain id is also the selector of a chain id of the direct
    range. *)
Theorem generate_oversized_collides (chainID : Z) :
  is_uint64 chainID -> 2 ^ 60 - 1 < chainID ->
  exists c, 0 <= c <= 2 ^ 60 - 1 /\ c <> chainID
            /\ generateCustomChainSelector c
               = generateCustomChainSelector chainID.
Proof.
  intros [Hlo _] Hbig.
  destruct (generate_shape chainID Hlo) as (p & Hp & Hgen).
  exists p. rewrite Hgen, generate_direct by lia. lia.
Qed.

Lemma generate_oversized_collides_witness :
  exists c, 0 <= c <= 2 ^ 60 - 1 /\ c <> 2 ^ 60
            /\ generateCustomChainSelector c
               = generateCustomChainSelector (2 ^ 60).
Proof.
  apply (generate_oversized_collides (2 ^ 60)); unfold is_uint64; lia.
Defined.

(** Whatever the decoder returns re-encodes to the selector it was given,
    lies in the direct range, and the selector carried the tag. *)
Theorem extract_sound (selector chainID : Z) :
  extractChainIdFromCustomSelector selector = Ok chainID ->
  0 <= chainID <= 2 ^ 60 - 1
  /\ generateCustomChainSelector chainID = selector
  /\ isCustomSelector selector = true.
Proof.
  unfold extractChainIdFromCustomSelector.
  destruct (isCustomSelector selector); cbn [negb]; [| discriminate].
  destruct (Z.eqb_spec
              (generateCustomChainSelector (Z.land selector 0x0FFFFFFFFFFFFFFF))
              selector) as [Heq | _]; [| discriminate].
  intros [= <-]. repeat split; try exact Heq.
  - rewrite land_payload_mask. apply Z.mod_pos_bound. lia.
  - rewrite land_payload_mask.
    pose proof (Z.mod_pos_bound selector (2 ^ 60)). lia.
Qed.

Lemma extract_sound_witness :
  0 <= 7777777 <= 2 ^ 60 - 1
  /\ generateCustomChainSelector 7777777 = 0xE00000000076adf1
  /\ isCustomSelector 0xE00000000076adf1 = true.
Proof. apply (extract_sound 0xE00000000076adf1 7777777). reflexivity. Defined.

End CodecMore.

(** ** The superseded generation *)

Section LegacyCodec.

Lemma land_legacy_payload (x : Z) :
  Z.land x 0x3FFFFFFFFFFFFFFF = x mod 2 ^ 62.
Proof.
  change 0x3FFFFFFFFFFFFFFF with (Z.ones 62). apply Z.land_ones. lia.
Qed.

Lemma land_legacy_tag (x : Z) :
  Z.land x 0xC000000000000000 = 2 ^ 62 * ((x / 2 ^ 62) mod 4).
Proof.
  set (y := Z.land x 0xC000000000000000).
  assert (Hlow : y mod 2 ^ 62 = 0).
  { rewrite <- land_legacy_payload. unfold y.
    rewrite <- Z.land_assoc.
    change (Z.land 0xC000000000000000 0x3FFFFFFFFFFFFFFF) with 0.
    apply Z.land_0_r. }
  assert (Hhigh : y / 2 ^ 62 = (x / 2 ^ 62) mod 4).
  { rewrite <- !Z.shiftr_div_pow2 by lia. unfold y.
    rewrite Z.shiftr_land.
    change (Z.shiftr 0xC000000000000000 62) with (Z.ones 2).
    rewrite Z.land_ones by lia. reflexivity. }
  rewrite <- Hhigh.
  pose proof (Z.div_mod y (2 ^ 62)). lia.
Qed.

Lemma legacy_isCustomSelector_spec (s : Z) :
  Legacy.isCustomSelector s = true <-> (s / 2 ^ 62) mod 4 = 3.
Proof.
  unfold Legacy.isCustomSelector. rewrite Z.eqb_eq, land_legacy_tag. lia.
Qed.

Lemma legacy_generate_shape (c : Z) :
  exists p, 0 <= p < 2 ^ 62
            /\ Legacy.generateCustomChainSelector c = 0xC000000000000000 + p.
Proof.
  unfold Legacy.generateCustomChainSelector.
  set (sel := BigEndian_Uint64 _).
  exists (Z.land sel 0x3FFFFFFFFFFFFFFF).
  assert (Hp : 0 <= Z.land sel 0x3FFFFFFFFFFFFFFF < 2 ^ 62).
  { rewrite land_legacy_payload. apply Z.mod_pos_bound. lia. }
  split; [exact Hp |].
  symmetry. apply Z.add_nocarry_lor.
  rewrite (Z.land_comm sel), Z.land_assoc.
  change (Z.land 0xC000000000000000 0x3FFFFFFFFFFFFFFF) with 0.
  apply Z.land_0_l.
Qed.

Lemma legacy_generate_tagged (c : Z) :
  Legacy.isCustomSelector (Legacy.generateCustomChainSelector c) = true.
Proof.
  destruct (legacy_generate_shape c) as (p & Hp & ->).
  apply legacy_isCustomSelector_spec.
  replace ((0xC000000000000000 + p) / 2 ^ 62) with 3; [reflexivity |].
  apply (Z.div_unique _ _ _ p); lia.
Qed.

(** Every selector of the superseded encoder has its two top bits set and
    is a uint64 that the superseded predicate accepts. *)
Theorem legacy_generated_selector_is_custom (chainID : Z) :
  Legacy.isCustomSelector (Legacy.generateCustomChainSelector chainID) = true
  /\ 0xC000000000000000 <= Legacy.generateCustomChainSelector chainID < 2 ^ 64.
Proof.
  split; [apply legacy_generate_tagged |].
  destruct (legacy_generate_shape chainID) as (p & Hp & ->). lia.
Qed.

(** A selector that carries the [0xE] tag also passes the superseded
    two-bit test. *)
Theorem tagged_selector_passes_legacy_test (selector : Z) :
  isCustomSelector selector = true ->
  Legacy.isCustomSelector selector = true.
Proof.
  rewrite isCustomSelector_spec, legacy_isCustomSelector_spec.
  intros Htop.
  replace (selector / 2 ^ 62) with (selector / 2 ^ 60 / 4)
    by (rewrite Z.div_div by lia; reflexivity).
  pose proof (Z.div_mod (selector / 2 ^ 60) 16 ltac:(lia)) as H16.
  set (q := selector / 2 ^ 60) in *.
  replace q with (4 * (4 * (q / 16) + 3) + 2) at 1 by lia.
  replace ((4 * (4 * (q / 16) + 3) + 2) / 4) with (4 * (q / 16) + 3)
    by (apply (Z.div_unique _ _ _ 2); lia).
  symmetry. apply (Z.mod_unique _ _ (q / 16)); lia.
Qed.

Lemma tagged_selector_passes_legacy_test_witness :
  Legacy.isCustomSelector 0xE00000000076adf1 = true.
Proof.
  apply (tagged_selector_passes_legacy_test 0xE00000000076adf1). reflexivity.
Defined.

Lemma bruteForce_sound (fuel : nat) :
  forall c s k, 0 <= c ->
    Legacy.bruteForce fuel c s = Some (Ok k) ->
    c <= k < 100000000
    /\ Legacy.generateCustomChainSelector k = s
    /\ (forall j, c <= j < k -> Legacy.generateCustomChainSelector j <> s).
Proof.
  induction fuel as [| fuel IH]; intros c s k Hc; cbn [Legacy.bruteForce];
    [discriminate |].
  destruct (Z.ltb_spec c 100000000) as [Hlt | _]; [| discriminate].
  destruct (Z.eqb_spec (Legacy.generateCustomChainSelector c) s) as [Heq | Hne].
  - intros [= <-]. repeat split; [lia | lia | exact Heq | intros j Hj; lia].
  - rewrite Z.mod_small by lia. intros Hrec.
    destruct (IH (c + 1) s k ltac:(lia) Hrec) as (Hk & Hgen & Hleast).
    repeat split; [lia | lia | exact Hgen |].
    intros j Hj. destruct (Z.eq_dec j c) as [-> | Hjc]; [exact Hne |].
    apply Hleast. lia.
Qed.

Lemma bruteForce_finds (n : nat) :
  forall fuel c target s,
    0 <= c -> Z.of_nat n = target - c -> target < 100000000 ->
    Legacy.generateCustomChainSelector target = s -> (n < fuel)%nat ->
    exists k, c <= k <= target /\ Legacy.bruteForce fuel c s = Some (Ok k).
Proof.
  induction n as [| n IH]; intros fuel c target s Hc Hn Ht Hgen Hfuel;
    (destruct fuel as [| fuel]; [lia |]); cbn [Legacy.bruteForce];
    (destruct (Z.ltb_spec c 100000000) as [_ | Hge]; [| lia]).
  - assert (c = target) as -> by lia.
    rewrite Hgen, Z.eqb_refl. exists target. split; [lia | reflexivity].
  - destruct (Z.eqb_spec (Legacy.generateCustomChainSelector c) s) as [_ | _].
    + exists c. split; [lia | reflexivity].
    + rewrite Z.mod_small by lia.
      destruct (IH fuel (c + 1) target s ltac:(lia) ltac:(lia) Ht Hgen
                  ltac:(lia)) as (k & Hk & Hres).
      exists k. split; [lia | exact Hres].
Qed.

(** The brute-force decoder returns only chain ids between 1000000 and
    99999999: the least one of them whose selector is the one given. *)
Theorem legacy_extract_sound (fuel : nat) (selector chainID : Z) :
  Legacy.extractChainIdFromCustomSelector fuel selector = Some (Ok chainID) ->
  1000000 <= chainID < 100000000
  /\ Legacy.generateCustomChainSelector chainID = selector
  /\ (forall j, 1000000 <= j < chainID ->
                Legacy.generateCustomChainSelector j <> selector).
Proof.
  unfold Legacy.extractChainIdFromCustomSelector.
  destruct (Legacy.isCustomSelector selector); cbn [negb]; [| discriminate].
  apply bruteForce_sound. lia.
Qed.

Lemma legacy_extract_sound_witness :
  1000000 <= 1000000 < 100000000
  /\ Legacy.generateCustomChainSelector 1000000 = 15868908347976749409
  /\ (forall j, 1000000 <= j < 1000000 ->
                Legacy.generateCustomChainSelector j <> 15868908347976749409).
Proof.
  apply (legacy_extract_sound 1 15868908347976749409 1000000).
  vm_compute. reflexivity.
Defined.

(** Within the searched range the superseded codec round-trips up to
    collisions: with fuel for the iterations up to [chainID], decoding
    the selector of [chainID] ends with the least chain id of the range
    that has this selector; no smaller chain id of the range has it. *)
Theorem legacy_roundtrip_least (fuel : nat) (chainID : Z) :
  1000000 <= chainID < 100000000 ->
  chainID - 1000000 < Z.of_nat fuel ->
  exists k, 1000000 <= k <= chainID
            /\ Legacy.generateCustomChainSelector k
               = Legacy.generateCustomChainSelector chainID
            /\ (forall j, 1000000 <= j < k ->
                          Legacy.generateCustomChainSelector j
                          <> Legacy.generateCustomChainSelector chainID)
            /\ Legacy.extractChainIdFromCustomSelector fuel
                 (Legacy.generateCustomChainSelector chainID)
               = Some (Ok k).
Proof.
  intros Hc Hfuel. unfold Legacy.extractChainIdFromCustomSelector.
  rewrite legacy_generate_tagged. cbn [negb].
  destruct (bruteForce_finds (Z.to_nat (chainID - 1000000)) fuel 1000000
              chainID (Legacy.generateCustomChainSelector chainID))
    as (k & Hk & Hres); try lia; try reflexivity.
  assert (H0 : 0 <= 1000000) by lia.
  destruct (bruteForce_sound fuel 1000000 _ k H0 Hres)
    as (_ & Hgen & Hleast).
  exists k. repeat split; try lia; assumption.
Qed.

Lemma legacy_roundtrip_least_witness :
  1000000 <= 1000002 < 100000000
  /\ 1000002 - 1000000 < Z.of_nat 3
  /\ exists k, 1000000 <= k <= 1000002
               /\ Legacy.generateCustomChainSelector k
                  = Legacy.generateCustomChainSelector 1000002
               /\ (forall j, 1000000 <= j < k ->
                             Legacy.generateCustomChainSelector j
                             <> Legacy.generateCustomChainSelector 1000002)
               /\ Legacy.extractChainIdFromCustomSelector 3
                    (Legacy.generateCustomChainSelector 1000002)
                  = Some (Ok k).
Proof.
  assert (H1 : 1000000 <= 1000002 < 100000000) by lia.
  assert (H2 : 1000002 - 1000000 < Z.of_nat 3) by lia.
  split; [exact H1 |]. split; [exact H2 |].
  exact (legacy_roundtrip_least 3 1000002 H1 H2).
Defined.

(** The search at work: three iterations reach the third candidate. *)
Example legacy_roundtrip_third_candidate :
  Legacy.extractChainIdFromCustomSelector 3
    (Legacy.generateCustomChainSelector 1000002)
  = Some (Ok 1000002)
  /\ Legacy.extractChainIdFromCustomSelector 2
       (Legacy.generateCustomChainSelector 1000002)
     = None.
Proof. split; vm_compute; reflexivity. Qed.

End LegacyCodec.

(** ** Lookups by chain id, selector and name *)

Section RangeOrder.

Context {A : Type}.

Lemma range_order_elem (visit : list (Z * A)) (m : gmap Z A) (k : Z) (v : A) :
  range_order visit m -> (k, v) ∈ visit <-> m !! k = Some v.
Proof.
  unfold range_order. intros ->. apply elem_of_map_to_list.
Qed.

Lemma range_order_NoDup (visit : list (Z * A)) (m : gmap Z A) :
  range_order visit m -> NoDup (visit.*1).
Proof.
  unfold range_order. intros ->. apply NoDup_fst_map_to_list.
Qed.

Lemma range_order_map_to_list (m : gmap Z A) : range_order (map_to_list m) m.
Proof. unfold range_order. reflexivity. Qed.

Lemma find_Some_elem (f : Z * A -> bool) (l : list (Z * A)) (x : Z * A) :
  List.find f l = Some x -> x ∈ l /\ f x = true.
Proof.
  intros H. apply find_some in H. now rewrite list_elem_of_In.
Qed.

Lemma find_None_elem (f : Z * A -> bool) (l : list (Z * A)) :
  List.find f l = None -> forall x, x ∈ l -> f x = false.
Proof.
  intros H x Hx. apply (find_none f l H). now apply list_elem_of_In.
Qed.

Lemma find_is_Some (f : Z * A -> bool) (l : list (Z * A)) (x : Z * A) :
  x ∈ l -> f x = true -> exists y, List.find f l = Some y.
Proof.
  intros Hx Hf. destruct (List.find f l) as [y |] eqn:E; [now exists y |].
  rewrite (find_None_elem f l E x Hx) in Hf. discriminate.
Qed.

End RangeOrder.

Section SelectorLookups.

Variable evmChainIdToChainSelector : gmap Z ChainDetails.
Variable visit : list (Z * ChainDetails).
Variable Getenv : string -> string.

Hypothesis visit_order : range_order visit evmChainIdToChainSelector.

Lemma customChainsEnabled_on :
  Getenv "ENABLE_CUSTOM_CHAINS" <> "false"%string ->
  customChainsEnabled Getenv = true.
Proof.
  intros Hon. unfold customChainsEnabled.
  now apply String.eqb_neq in Hon as ->.
Qed.

Lemma isCustomChain_true_unregistered (chainID : Z) :
  isCustomChain evmChainIdToChainSelector chainID = true ->
  evmChainIdToChainSelector !! chainID = None.
Proof.
  unfold isCustomChain, isInOfficialSelectors.
  now destruct (evmChainIdToChainSelector !! chainID).
Qed.

Lemma isCustomChain_unregistered (chainID : Z) :
  evmChainIdToChainSelector !! chainID = None ->
  isCustomChain evmChainIdToChainSelector chainID = true.
Proof.
  intros Hnone. unfold isCustomChain, isInOfficialSelectors.
  now rewrite Hnone.
Qed.

Lemma GetCustomChainSelector_on (chainID : Z) :
  Getenv "ENABLE_CUSTOM_CHAINS" <> "false"%string ->
  evmChainIdToChainSelector !! chainID = None ->
  GetCustomChainSelector evmChainIdToChainSelector Getenv chainID
  = ([PrintGenerated (generateCustomChainName chainID) chainID
        (generateCustomChainSelector chainID)],
     Ok (generateCustomChainSelector chainID)).
Proof.
  intros Hon Hnone. unfold GetCustomChainSelector.
  now rewrite Hnone, isCustomChain_unregistered, customChainsEnabled_on.
Qed.

Lemma find_selector_registered (s : Z) (kv : Z * ChainDetails) :
  List.find (fun kv => ChainSelector kv.2 =? s) visit = Some kv ->
  evmChainIdToChainSelector !! kv.1 = Some kv.2 /\ ChainSelector kv.2 = s.
Proof.
  intros Hfind. apply find_Some_elem in Hfind as [Hin Hsel].
  split; [| now apply Z.eqb_eq].
  destruct kv as [k d]. now apply (range_order_elem visit).
Qed.

Lemma find_selector_none (s : Z) :
  List.find (fun kv => ChainSelector kv.2 =? s) visit = None ->
  forall k d, evmChainIdToChainSelector !! k = Some d -> ChainSelector d <> s.
Proof.
  intros Hfind k d Hreg.
  apply (range_order_elem visit _ k d visit_order) in Hreg.
  pose proof (find_None_elem _ _ Hfind (k, d) Hreg) as Hne.
  now apply Z.eqb_neq in Hne.
Qed.

Lemma find_selector_absent (s : Z) :
  (forall k d, evmChainIdToChainSelector !! k = Some d -> ChainSelector d <> s) ->
  List.find (fun kv => ChainSelector kv.2 =? s) visit = None.
Proof.
  intros Habs.
  destruct (List.find _ visit) as [kv |] eqn:E; [| reflexivity].
  apply find_selector_registered in E as [Hreg Hsel].
  now destruct (Habs _ _ Hreg).
Qed.

End SelectorLookups.

(** [SelectorFromChainId] agrees with [GetCustomChainSelector] on every
    chain id, and neither ever reports "chain selector not found": a
    chain id that is not registered is always classified custom. *)
Theorem selector_lookup_never_not_found
    (evmChainIdToChainSelector : gmap Z ChainDetails)
    (Getenv : string -> string) (chainID : Z) :
  SelectorFromChainId evmChainIdToChainSelector Getenv chainID
  = GetCustomChainSelector evmChainIdToChainSelector Getenv chainID
  /\ forall c, (GetCustomChainSelector evmChainIdToChainSelector Getenv
                  chainID).2
               <> Err (ErrSelectorNotFound c).
Proof.
  unfold SelectorFromChainId, GetCustomChainSelector, isCustomChain,
    isInOfficialSelectors.
  destruct (evmChainIdToChainSelector !! chainID) as [d |];
    cbn [negb]; (split; [reflexivity |]); intros c;
    [| destruct (customChainsEnabled Getenv)]; cbn; congruence.
Qed.

(** With custom chains enabled, the selector of an unregistered chain id
    is generated: the lookup succeeds, reports the generation on standard
    output, and the selector is tagged and not zero. *)
Theorem enabled_selector_is_generated
    (evmChainIdToChainSelector : gmap Z ChainDetails)
    (Getenv : string -> string) (chainID : Z) :
  is_uint64 chainID ->
  Getenv "ENABLE_CUSTOM_CHAINS" <> "false"%string ->
  evmChainIdToChainSelector !! chainID = None ->
  exists selector,
    SelectorFromChainId evmChainIdToChainSelector Getenv chainID
    = ([PrintGenerated (generateCustomChainName chainID) chainID selector],
       Ok selector)
    /\ isCustomSelector selector = true
    /\ selector <> 0.
Proof.
  intros [Hlo _] Hon Hnone.
  exists (generateCustomChainSelector chainID).
  unfold SelectorFromChainId. rewrite Hnone.
  rewrite GetCustomChainSelector_on by assumption.
  destruct (generate_shape chainID Hlo) as (p & Hp & ->).
  repeat split; [now apply isCustomSelector_tagged | lia].
Qed.

Lemma enabled_selector_is_generated_witness :
  exists selector,
    SelectorFromChainId mainnet_only env_unset 9250445
    = ([PrintGenerated (generateCustomChainName 9250445) 9250445 selector],
       Ok selector)
    /\ isCustomSelector selector = true
    /\ selector <> 0.
Proof.
  apply (enabled_selector_is_generated mainnet_only env_unset 9250445).
  - unfold is_uint64. lia.
  - discriminate.
  - reflexivity.
Defined.

(** What [ChainIdFromSelector] returns is either the id of a registered
    chain with that selector, or, when no registered chain has the
    selector and it carries the tag, its low 60 bits. *)
Theorem ChainIdFromSelector_sound
    (evmChainIdToChainSelector : gmap Z ChainDetails)
    (visit : list (Z * ChainDetails)) (selector chainID : Z) :
  range_order visit evmChainIdToChainSelector ->
  ChainIdFromSelector visit selector = Ok chainID ->
  (exists d, evmChainIdToChainSelector !! chainID = Some d
             /\ ChainSelector d = selector)
  \/ ((forall k d, evmChainIdToChainSelector !! k = Some d ->
                   ChainSelector d <> selector)
      /\ isCustomSelector selector = true
      /\ chainID = Z.land selector 0x0FFFFFFFFFFFFFFF
      /\ generateCustomChainSelector chainID = selector).
Proof.
  intros Hvisit. unfold ChainIdFromSelector.
  destruct (List.find _ visit) as [kv |] eqn:Hfind.
  - intros [= <-]. left. exists kv.2.
    now apply (find_selector_registered _ visit Hvisit).
  - pose proof (find_selector_none _ visit Hvisit _ Hfind) as Habs.
    destruct (isCustomSelector selector) eqn:Htag; [| discriminate].
    intros Hext. right. split; [exact Habs |]. split; [reflexivity |].
    unfold extractChainIdFromCustomSelector in Hext.
    rewrite Htag in Hext. cbn [negb] in Hext.
    destruct (Z.eqb_spec
                (generateCustomChainSelector
                   (Z.land selector 0x0FFFFFFFFFFFFFFF)) selector)
      as [Heq | _]; [| discriminate].
    injection Hext as <-. split; [reflexivity | exact Heq].
Qed.

Lemma ChainIdFromSelector_sound_witness :
  (exists d, mainnet_only !! 1 = Some d
             /\ ChainSelector d = 5009297550715157269)
  \/ ((forall k d, mainnet_only !! k = Some d ->
                   ChainSelector d <> 5009297550715157269)
      /\ isCustomSelector 5009297550715157269 = true
      /\ 1 = Z.land 5009297550715157269 0x0FFFFFFFFFFFFFFF
      /\ generateCustomChainSelector 1 = 5009297550715157269).
Proof.
  apply (ChainIdFromSelector_sound mainnet_only (map_to_list mainnet_only)).
  - apply range_order_map_to_list.
  - vm_compute. reflexivity.
Defined.

(** [ChainIdFromSelector] fails on a 64-bit selector only when no
    registered chain has it and it does not carry the tag, and then with
    its own not-found error. *)
Theorem ChainIdFromSelector_fails_only_unknown
    (evmChainIdToChainSelector : gmap Z ChainDetails)
    (visit : list (Z * ChainDetails)) (selector : Z) (e : error) :
  range_order visit evmChainIdToChainSelector ->
  is_uint64 selector ->
  ChainIdFromSelector visit selector = Err e ->
  (forall k d, evmChainIdToChainSelector !! k = Some d ->
               ChainSelector d <> selector)
  /\ isCustomSelector selector = false
  /\ e = ErrExternal (Sprintf "chain not found for chain selector %d"
                              [selector]).
Proof.
  intros Hvisit Hu. unfold ChainIdFromSelector.
  destruct (List.find _ visit) as [kv |] eqn:Hfind; [discriminate |].
  pose proof (find_selector_none _ visit Hvisit _ Hfind) as Habs.
  destruct (isCustomSelector selector) eqn:Htag.
  - apply isCustomSelector_spec in Htag.
    rewrite top_nibble_uint64 in Htag by exact Hu.
    rewrite (extract_tagged selector Hu Htag). discriminate.
  - intros [= <-]. repeat split. exact Habs.
Qed.

Lemma ChainIdFromSelector_fails_only_unknown_witness :
  (forall k d, mainnet_only !! k = Some d -> ChainSelector d <> 7)
  /\ isCustomSelector 7 = false
  /\ ErrExternal "chain not found for chain selector 7"
     = ErrExternal (Sprintf "chain not found for chain selector %d" [7]).
Proof.
  apply (ChainIdFromSelector_fails_only_unknown mainnet_only
           (map_to_list mainnet_only) 7).
  - apply range_order_map_to_list.
  - unfold is_uint64. lia.
  - vm_compute. reflexivity.
Defined.

(** Round trip through the registry: when no other registered chain
    shares its selector, a registered chain id comes back from its
    selector, in whatever order the registry is visited. *)
Theorem registered_selector_roundtrip
    (evmChainIdToChainSelector : gmap Z ChainDetails)
    (visit : list (Z * ChainDetails)) (Getenv : string -> string)
    (chainID : Z) (details : ChainDetails) :
  range_order visit evmChainIdToChainSelector ->
  evmChainIdToChainSelector !! chainID = Some details ->
  (forall k d, evmChainIdToChainSelector !! k = Some d ->
               ChainSelector d = ChainSelector details -> k = chainID) ->
  SelectorFromChainId evmChainIdToChainSelector Getenv chainID
  = ([], Ok (ChainSelector details))
  /\ ChainIdFromSelector visit (ChainSelector details) = Ok chainID.
Proof.
  intros Hvisit Hreg Huniq. split.
  - unfold SelectorFromChainId. now rewrite Hreg.
  - unfold ChainIdFromSelector.
    assert (Hin : (chainID, details) ∈ visit)
      by now apply (range_order_elem visit evmChainIdToChainSelector).
    destruct (find_is_Some (fun kv => ChainSelector kv.2 =? ChainSelector details)
                visit _ Hin (Z.eqb_refl _)) as (kv & Hfind).
    rewrite Hfind. f_equal.
    apply (find_selector_registered _ visit Hvisit) in Hfind as [Hkv Hsel].
    now apply (Huniq kv.1 kv.2).
Qed.

Lemma registered_selector_roundtrip_witness :
  SelectorFromChainId mainnet_only env_custom_chains_off 1
  = ([], Ok 5009297550715157269)
  /\ ChainIdFromSelector (map_to_list mainnet_only) 5009297550715157269 = Ok 1.
Proof.
  apply (registered_selector_roundtrip mainnet_only (map_to_list mainnet_only)
           env_custom_chains_off 1
           {| ChainSelector := 5009297550715157269;
              ChainName := "ethereum-mainnet" |}).
  - apply range_order_map_to_list.
  - reflexivity.
  - intros k d Hk _. unfold mainnet_only in Hk.
    apply lookup_singleton_Some in Hk as [<- _]. reflexivity.
Defined.

(** Round trip through the codec: with custom chains enabled and no
    registered selector carrying the tag, an unregistered chain id of the
    direct range comes back from the selector generated for it. *)
Theorem custom_selector_roundtrip
    (evmChainIdToChainSelector : gmap Z ChainDetails)
    (visit : list (Z * ChainDetails)) (Getenv : string -> string)
    (chainID : Z) :
  range_order visit evmChainIdToChainSelector ->
  0 <= chainID <= 2 ^ 60 - 1 ->
  Getenv "ENABLE_CUSTOM_CHAINS" <> "false"%string ->
  evmChainIdToChainSelector !! chainID = None ->
  (forall k d, evmChainIdToChainSelector !! k = Some d ->
               isCustomSelector (ChainSelector d) = false) ->
  exists selector,
    (SelectorFromChainId evmChainIdToChainSelector Getenv chainID).2
    = Ok selector
    /\ ChainIdFromSelector visit selector = Ok chainID.
Proof.
  intros Hvisit Hc Hon Hnone Hdisj.
  exists (generateCustomChainSelector chainID). split.
  - unfold SelectorFromChainId. rewrite Hnone.
    now rewrite GetCustomChainSelector_on.
  - assert (Htag : isCustomSelector (generateCustomChainSelector chainID) = true).
    { rewrite generate_direct by exact Hc. apply isCustomSelector_tagged. lia. }
    unfold ChainIdFromSelector.
    rewrite (find_selector_absent _ visit Hvisit).
    + rewrite Htag, extract_generate by (unfold is_uint64; lia).
      rewrite generate_direct by exact Hc. f_equal. lia.
    + intros k d Hreg Heq. specialize (Hdisj k d Hreg). congruence.
Qed.

Lemma custom_selector_roundtrip_witness :
  exists selector,
    (SelectorFromChainId mainnet_only env_unset 9388201).2 = Ok selector
    /\ ChainIdFromSelector (map_to_list mainnet_only) selector = Ok 9388201.
Proof.
  apply (custom_selector_roundtrip mainnet_only (map_to_list mainnet_only)
           env_unset 9388201).
  - apply range_order_map_to_list.
  - lia.
  - discriminate.
  - reflexivity.
  - intros k d Hk. unfold mainnet_only in Hk.
    apply lookup_singleton_Some in Hk as [_ <-]. reflexivity.
Defined.

(** ** Names *)

Section Names.

Variable evmChainIdToChainSelector : gmap Z ChainDetails.
Variable visit : list (Z * ChainDetails).

Hypothesis visit_order : range_order visit evmChainIdToChainSelector.

Lemma generateCustomChainName_prefix (chainID : Z) :
  generateCustomChainName chainID = "custom-testnet-" +:+ FormatUint chainID.
Proof.
  unfold generateCustomChainName. cbn [Sprintf]. now rewrite append_empty_r.
Qed.

Lemma ParseUint_not_a_digit (c : ascii) (rest : string) :
  digit_value c = None -> ParseUint (String c rest) = None.
Proof. intros Hc. unfold ParseUint. cbn [parseDigits]. now rewrite Hc. Qed.

Lemma FormatUint_nonempty (u : Z) : is_uint64 u -> FormatUint u <> EmptyString.
Proof. intros Hu. now destruct (FormatUint_renders u Hu) as (Hne & _). Qed.

Lemma find_name_registered (name : string) (kv : Z * ChainDetails) :
  List.find (fun kv => String.eqb (ChainName kv.2) name) visit = Some kv ->
  evmChainIdToChainSelector !! kv.1 = Some kv.2 /\ ChainName kv.2 = name.
Proof.
  intros Hfind. apply find_Some_elem in Hfind as [Hin Hname].
  split; [| now apply String.eqb_eq].
  destruct kv as [k d]. now apply (range_order_elem visit).
Qed.

Lemma find_name_absent (name : string) :
  (forall k d, evmChainIdToChainSelector !! k = Some d -> ChainName d <> name) ->
  List.find (fun kv => String.eqb (ChainName kv.2) name) visit = None.
Proof.
  intros Habs.
  destruct (List.find _ visit) as [kv |] eqn:E; [| reflexivity].
  apply find_name_registered in E as [Hreg Hname].
  now destruct (Habs _ _ Hreg).
Qed.

End Names.

(** [NameFromChainId] never fails and never returns the empty name: a
    registered chain gets its name, or its decimal id when the name is
    empty, and any other chain id gets the generated name. *)
Theorem NameFromChainId_total
    (evmChainIdToChainSelector : gmap Z ChainDetails) (chainId : Z) :
  is_uint64 chainId ->
  exists name,
    NameFromChainId evmChainIdToChainSelector chainId = Ok name
    /\ name <> EmptyString.
Proof.
  intros Hu. unfold NameFromChainId, isCustomChain, isInOfficialSelectors.
  destruct (evmChainIdToChainSelector !! chainId) as [d |]; cbn [negb].
  - destruct (String.eqb_spec (ChainName d) "") as [_ | Hne].
    + eexists. split; [reflexivity | now apply FormatUint_nonempty].
    + eexists. split; [reflexivity | exact Hne].
  - eexists. split; [reflexivity |].
    rewrite generateCustomChainName_prefix. discriminate.
Qed.

Lemma NameFromChainId_total_witness :
  exists name, NameFromChainId mainnet_only 9388201 = Ok name
               /\ name <> EmptyString.
Proof.
  apply (NameFromChainId_total mainnet_only 9388201). unfold is_uint64. lia.
Defined.

(** A chain id written in decimal resolves to itself when no registered
    chain is named by that numeral and the registry either does not know
    the chain id or knows it without a name. *)
Theorem ChainIdFromName_decimal
    (evmChainIdToChainSelector : gmap Z ChainDetails)
    (visit : list (Z * ChainDetails)) (chainId : Z) :
  range_order visit evmChainIdToChainSelector ->
  is_uint64 chainId ->
  (forall k d, evmChainIdToChainSelector !! k = Some d ->
               ChainName d <> FormatUint chainId) ->
  (forall d, evmChainIdToChainSelector !! chainId = Some d ->
             ChainName d = EmptyString) ->
  ChainIdFromName evmChainIdToChainSelector visit (FormatUint chainId)
  = Ok chainId.
Proof.
  intros Hvisit Hu Hnames Hanon. unfold ChainIdFromName.
  rewrite (find_name_absent _ visit Hvisit) by exact Hnames.
  rewrite ParseUint_FormatUint by exact Hu.
  unfold isCustomChain, isInOfficialSelectors.
  destruct (evmChainIdToChainSelector !! chainId) as [d |] eqn:Hreg.
  - now rewrite (Hanon d eq_refl).
  - reflexivity.
Qed.

Lemma ChainIdFromName_decimal_witness :
  ChainIdFromName mainnet_only (map_to_list mainnet_only) (FormatUint 9388201)
  = Ok 9388201.
Proof.
  apply (ChainIdFromName_decimal mainnet_only (map_to_list mainnet_only)).
  - apply range_order_map_to_list.
  - unfold is_uint64. lia.
  - intros k d Hk. unfold mainnet_only in Hk.
    apply lookup_singleton_Some in Hk as [_ <-]. vm_compute. discriminate.
  - intros d Hk. unfold mainnet_only in Hk.
    apply lookup_singleton_Some in Hk as [Hk _]. discriminate.
Defined.

(** The generated name does not lead back to the chain id: unless a
    registered chain happens to carry that name, [ChainIdFromName] of the
    name that [NameFromChainId] gives an unregistered chain id fails. *)
Theorem generated_name_not_resolvable
    (evmChainIdToChainSelector : gmap Z ChainDetails)
    (visit : list (Z * ChainDetails)) (chainId : Z) :
  range_order visit evmChainIdToChainSelector ->
  evmChainIdToChainSelector !! chainId = None ->
  (forall k d, evmChainIdToChainSelector !! k = Some d ->
               ChainName d <> generateCustomChainName chainId) ->
  NameFromChainId evmChainIdToChainSelector chainId
  = Ok (generateCustomChainName chainId)
  /\ ChainIdFromName evmChainIdToChainSelector visit
       (generateCustomChainName chainId)
     = Err (ErrExternal ("chain not found for name "
                         +:+ generateCustomChainName chainId)).
Proof.
  intros Hvisit Hnone Hnames. split.
  - unfold NameFromChainId, isCustomChain, isInOfficialSelectors.
    now rewrite Hnone.
  - unfold ChainIdFromName.
    rewrite (find_name_absent _ visit Hvisit) by exact Hnames.
    replace (ParseUint (generateCustomChainName chainId)) with (@None Z);
      [reflexivity |].
    rewrite generateCustomChainName_prefix. symmetry.
    now apply ParseUint_not_a_digit.
Qed.

Lemma generated_name_not_resolvable_witness :
  NameFromChainId mainnet_only 9388201 = Ok (generateCustomChainName 9388201)
  /\ ChainIdFromName mainnet_only (map_to_list mainnet_only)
       (generateCustomChainName 9388201)
     = Err (ErrExternal ("chain not found for name "
                         +:+ generateCustomChainName 9388201)).
Proof.
  apply (generated_name_not_resolvable mainnet_only
           (map_to_list mainnet_only) 9388201).
  - apply range_order_map_to_list.
  - reflexivity.
  - intros k d Hk. unfold mainnet_only in Hk.
    apply lookup_singleton_Some in Hk as [_ <-]. vm_compute. discriminate.
Defined.

(** A registered chain with a name of its own that no other registered
    chain carries is found again by that name, in whatever order the
    registry is visited. *)
Theorem registered_name_roundtrip
    (evmChainIdToChainSelector : gmap Z ChainDetails)
    (visit : list (Z * ChainDetails)) (chainId : Z) (details : ChainDetails) :
  range_order visit evmChainIdToChainSelector ->
  evmChainIdToChainSelector !! chainId = Some details ->
  ChainName details <> EmptyString ->
  (forall k d, evmChainIdToChainSelector !! k = Some d ->
               ChainName d = ChainName details -> k = chainId) ->
  NameFromChainId evmChainIdToChainSelector chainId = Ok (ChainName details)
  /\ ChainIdFromName evmChainIdToChainSelector visit (ChainName details)
     = Ok chainId.
Proof.
  intros Hvisit Hreg Hne Huniq. split.
  - unfold NameFromChainId. rewrite Hreg.
    now apply String.eqb_neq in Hne as ->.
  - unfold ChainIdFromName.
    assert (Hin : (chainId, details) ∈ visit)
      by now apply (range_order_elem visit evmChainIdToChainSelector).
    destruct (find_is_Some
                (fun kv => String.eqb (ChainName kv.2) (ChainName details))
                visit _ Hin (String.eqb_refl _)) as (kv & Hfind).
    rewrite Hfind. f_equal.
    apply (find_name_registered _ visit Hvisit) in Hfind as [Hkv Hname].
    now apply (Huniq kv.1 kv.2).
Qed.

Lemma registered_name_roundtrip_witness :
  NameFromChainId mainnet_only 1 = Ok "ethereum-mainnet"%string
  /\ ChainIdFromName mainnet_only (map_to_list mainnet_only) "ethereum-mainnet"
     = Ok 1.
Proof.
  apply (registered_name_roundtrip mainnet_only (map_to_list mainnet_only) 1
           {| ChainSelector := 5009297550715157269;
              ChainName := "ethereum-mainnet" |}).
  - apply range_order_map_to_list.
  - reflexivity.
  - discriminate.
  - intros k d Hk _. unfold mainnet_only in Hk.
    apply lookup_singleton_Some in Hk as [<- _]. reflexivity.
Defined.

(** ** The tables of [init] and the lookups of chains *)

Section Tables.

(** Filling one table: [key] is [Selector] or [EvmChainID]. *)
Variable key : Chain -> Z.

Definition fill (table : gmap Z Chain) (ALL : list Chain) : gmap Z Chain :=
  fold_left (fun m ch => <[key ch := ch]> m) ALL table.

Lemma fill_keyed (ALL : list Chain) :
  forall table,
    (forall k ch, table !! k = Some ch -> key ch = k) ->
    forall k ch, fill table ALL !! k = Some ch ->
                 key ch = k /\ (ch ∈ ALL \/ table !! k = Some ch).
Proof.
  induction ALL as [| a ALL IH]; intros table Hinv k ch Hlook; cbn in Hlook.
  - split; [now apply Hinv | now right].
  - apply IH in Hlook as [Hkey Hfrom].
    + split; [exact Hkey |]. destruct Hfrom as [Hin | Hnew].
      * left. apply elem_of_cons. now right.
      * destruct (decide (key a = k)) as [<- | Hne].
        -- rewrite lookup_insert_eq in Hnew. injection Hnew as <-.
           left. apply elem_of_cons. now left.
        -- rewrite lookup_insert_ne in Hnew by exact Hne. now right.
    + intros k' ch' Hk'. destruct (decide (key a = k')) as [<- | Hne].
      * rewrite lookup_insert_eq in Hk'. now injection Hk' as <-.
      * rewrite lookup_insert_ne in Hk' by exact Hne. now apply Hinv.
Qed.

Lemma fill_other (ALL : list Chain) :
  forall table k, k ∉ map key ALL -> fill table ALL !! k = table !! k.
Proof.
  induction ALL as [| a ALL IH]; intros table k Hk; cbn; [reflexivity |].
  cbn in Hk. apply not_elem_of_cons in Hk as [Hne Hk].
  unfold fill in IH. rewrite IH by exact Hk.
  now rewrite lookup_insert_ne.
Qed.

Lemma fill_member (ALL : list Chain) :
  forall table ch, NoDup (map key ALL) -> ch ∈ ALL ->
                   fill table ALL !! key ch = Some ch.
Proof.
  induction ALL as [| a ALL IH]; intros table ch Hnd Hin.
  - now apply elem_of_nil in Hin.
  - cbn in Hnd. apply NoDup_cons in Hnd as [Hfresh Hnd].
    apply elem_of_cons in Hin as [-> | Hin]; cbn.
    + fold (fill (<[key a := a]> table) ALL).
      rewrite fill_other by exact Hfresh. apply lookup_insert_eq.
    + now apply IH.
Qed.

End Tables.

Lemma init_tables (ALL : list Chain) :
  init ALL = (fill Selector ∅ ALL, fill EvmChainID ∅ ALL).
Proof.
  unfold init, fill.
  generalize (∅ : gmap Z Chain) at 1 3. generalize (∅ : gmap Z Chain).
  induction ALL as [| a ALL IH]; intros t2 t1; cbn; [reflexivity |].
  now rewrite IH.
Qed.

(** A chain found by selector has that selector: it is a chain of [ALL],
    or a chain made up for a tagged selector, whose id re-encodes to the
    selector and whose names are generated from the id. *)
Theorem ChainBySelector_found (ALL : list Chain) (sel : Z) (ch : Chain) :
  ChainBySelector (init ALL).1 sel = (ch, true) ->
  Selector ch = sel
  /\ (ch ∈ ALL
      \/ (isCustomSelector sel = true
          /\ generateCustomChainSelector (EvmChainID ch) = sel
          /\ Name ch = generateCustomChainName (EvmChainID ch)
          /\ VarName ch = Sprintf "CUSTOM_TESTNET_%d" [EvmChainID ch])).
Proof.
  rewrite init_tables. cbn [fst]. unfold ChainBySelector.
  destruct (fill Selector ∅ ALL !! sel) as [c |] eqn:Hlook.
  - intros [= ->].
    apply fill_keyed in Hlook as [Hkey [Hin | Hempty]];
      [now split; [| left] | now rewrite lookup_empty in Hempty |].
    intros k c' Hk. now rewrite lookup_empty in Hk.
  - destruct (isCustomSelector sel) eqn:Htag; [| discriminate].
    destruct (extractChainIdFromCustomSelector sel) as [c |] eqn:Hext;
      [| discriminate].
    intros [= <-]. cbn. split; [reflexivity | right].
    unfold extractChainIdFromCustomSelector in Hext.
    rewrite Htag in Hext. cbn [negb] in Hext.
    destruct (Z.eqb_spec
                (generateCustomChainSelector (Z.land sel 0x0FFFFFFFFFFFFFFF))
                sel) as [Heq | _]; [| discriminate].
    injection Hext as <-. now repeat split.
Qed.

Lemma ChainBySelector_found_witness :
  Selector {| EvmChainID := 1; Selector := 5009297550715157269;
              Name := "ethereum-mainnet"; VarName := "ETHEREUM_MAINNET" |}
  = 5009297550715157269.
Proof.
  apply (ChainBySelector_found
           [{| EvmChainID := 1; Selector := 5009297550715157269;
               Name := "ethereum-mainnet"; VarName := "ETHEREUM_MAINNET" |}]
           5009297550715157269).
  vm_compute. reflexivity.
Defined.

(** A chain found by chain id has that chain id: it is a chain of [ALL],
    or a chain made up for an id the registry does not know, with the
    generated selector and names. *)
Theorem ChainByEvmChainID_found
    (evmChainIdToChainSelector : gmap Z ChainDetails) (ALL : list Chain)
    (evmChainID : Z) (ch : Chain) :
  ChainByEvmChainID evmChainIdToChainSelector (init ALL).2 evmChainID
  = (ch, true) ->
  EvmChainID ch = evmChainID
  /\ (ch ∈ ALL
      \/ (evmChainIdToChainSelector !! evmChainID = None
          /\ Selector ch = generateCustomChainSelector evmChainID
          /\ Name ch = generateCustomChainName evmChainID
          /\ VarName ch = Sprintf "CUSTOM_TESTNET_%d" [evmChainID])).
Proof.
  rewrite init_tables. cbn [snd]. unfold ChainByEvmChainID.
  destruct (fill EvmChainID ∅ ALL !! evmChainID) as [c |] eqn:Hlook.
  - intros [= ->].
    apply fill_keyed in Hlook as [Hkey [Hin | Hempty]];
      [now split; [| left] | now rewrite lookup_empty in Hempty |].
    intros k c' Hk. now rewrite lookup_empty in Hk.
  - destruct (isCustomChain evmChainIdToChainSelector evmChainID) eqn:Hcustom;
      [| discriminate].
    intros [= <-]. cbn. split; [reflexivity | right].
    apply isCustomChain_true_unregistered in Hcustom. now repeat split.
Qed.

Lemma ChainByEvmChainID_found_witness :
  EvmChainID {| EvmChainID := 9388201;
                Selector := generateCustomChainSelector 9388201;
                Name := generateCustomChainName 9388201;
                VarName := Sprintf "CUSTOM_TESTNET_%d" [9388201] |}
  = 9388201.
Proof.
  apply (ChainByEvmChainID_found mainnet_only [] 9388201). reflexivity.
Defined.

(** When the selectors of [ALL] are pairwise distinct, and so are its
    chain ids, every chain of [ALL] is found under its selector and under
    its chain id. *)
Theorem ALL_chains_are_found
    (evmChainIdToChainSelector : gmap Z ChainDetails) (ALL : list Chain)
    (ch : Chain) :
  NoDup (map Selector ALL) -> NoDup (map EvmChainID ALL) -> ch ∈ ALL ->
  ChainBySelector (init ALL).1 (Selector ch) = (ch, true)
  /\ ChainByEvmChainID evmChainIdToChainSelector (init ALL).2 (EvmChainID ch)
     = (ch, true).
Proof.
  intros Hsel Hid Hin. rewrite init_tables. cbn [fst snd].
  unfold ChainBySelector, ChainByEvmChainID.
  now rewrite !fill_member.
Qed.

Lemma ALL_chains_are_found_witness :
  let ch := {| EvmChainID := 1; Selector := 5009297550715157269;
               Name := "ethereum-mainnet"; VarName := "ETHEREUM_MAINNET" |} in
  ChainBySelector (init [ch]).1 (Selector ch) = (ch, true)
  /\ ChainByEvmChainID mainnet_only (init [ch]).2 (EvmChainID ch) = (ch, true).
Proof.
  intros ch. apply (ALL_chains_are_found mainnet_only [ch] ch).
  - apply NoDup_singleton.
  - apply NoDup_singleton.
  - apply list_elem_of_singleton. reflexivity.
Defined.

(** A chain made up for an unregistered chain id of the direct range is
    found again, field for field, under its selector, provided the table
    has no chain under that selector. *)
Theorem custom_chain_roundtrip
    (evmChainIdToChainSelector : gmap Z ChainDetails)
    (evmChainsBySelector evmChainsByEvmChainID : gmap Z Chain)
    (evmChainID : Z) :
  0 <= evmChainID <= 2 ^ 60 - 1 ->
  evmChainIdToChainSelector !! evmChainID = None ->
  evmChainsByEvmChainID !! evmChainID = None ->
  evmChainsBySelector !! generateCustomChainSelector evmChainID = None ->
  exists ch,
    ChainByEvmChainID evmChainIdToChainSelector evmChainsByEvmChainID
      evmChainID = (ch, true)
    /\ ChainBySelector evmChainsBySelector (Selector ch) = (ch, true).
Proof.
  intros Hc Hreg Hid Hsel. eexists. split.
  - unfold ChainByEvmChainID.
    now rewrite Hid, isCustomChain_unregistered.
  - cbn [Selector]. unfold ChainBySelector. rewrite Hsel.
    assert (Htag : isCustomSelector (generateCustomChainSelector evmChainID)
                   = true).
    { rewrite generate_direct by exact Hc. apply isCustomSelector_tagged. lia. }
    rewrite Htag, extract_generate by (unfold is_uint64; lia).
    rewrite generate_direct by exact Hc.
    replace (0xE000000000000000 + evmChainID - 0xE000000000000000)
      with evmChainID by lia.
    reflexivity.
Qed.

Lemma custom_chain_roundtrip_witness :
  exists ch,
    ChainByEvmChainID mainnet_only ∅ 9388201 = (ch, true)
    /\ ChainBySelector ∅ (Selector ch) = (ch, true).
Proof.
  apply (custom_chain_roundtrip mainnet_only ∅ ∅ 9388201);
    [lia | reflexivity..].
Defined.

(** On a 64-bit selector [IsEvm] answers true exactly when the table has
    a chain under the selector or the selector carries the tag; in every
    other case it fails, it never answers false. *)
Theorem IsEvm_true_or_error (evmChainsBySelector : gmap Z Chain)
    (chainSel : Z) :
  is_uint64 chainSel ->
  (IsEvm evmChainsBySelector chainSel = Ok true
   <-> is_Some (evmChainsBySelector !! chainSel) \/ Z.shiftr chainSel 60 = 0xE)
  /\ (IsEvm evmChainsBySelector chainSel <> Ok true ->
      IsEvm evmChainsBySelector chainSel
      = Err (ErrExternal (Sprintf "chain %d not found" [chainSel]))).
Proof.
  intros Hu. unfold IsEvm, ChainBySelector.
  destruct (evmChainsBySelector !! chainSel) as [c |] eqn:Hlook; cbn.
  - split; [| congruence]. split; [intros _; left; eauto | reflexivity].
  - destruct (isCustomSelector chainSel) eqn:Htag.
    + assert (Htop : Z.shiftr chainSel 60 = 0xE).
      { apply isCustomSelector_spec in Htag.
        now rewrite top_nibble_uint64 in Htag. }
      rewrite (extract_tagged chainSel Hu Htop). cbn.
      split; [| congruence]. split; [now right | reflexivity].
    + cbn. split; [| reflexivity]. split; [discriminate |].
      intros [[c Hc] | Htop]; [discriminate |].
      assert (isCustomSelector chainSel = true); [| congruence].
      apply isCustomSelector_spec. now rewrite top_nibble_uint64.
Qed.

Lemma IsEvm_true_or_error_witness :
  (IsEvm ∅ 0xE00000000076adf1 = Ok true
   <-> is_Some ((∅ : gmap Z Chain) !! 0xE00000000076adf1)
       \/ Z.shiftr 0xE00000000076adf1 60 = 0xE)
  /\ (IsEvm ∅ 0xE00000000076adf1 <> Ok true ->
      IsEvm ∅ 0xE00000000076adf1
      = Err (ErrExternal (Sprintf "chain %d not found" [0xE00000000076adf1]))).
Proof.
  apply (IsEvm_true_or_error ∅ 0xE00000000076adf1). unfold is_uint64. lia.
Defined.

(** ** Listing the chains of a range *)

Section Listing.

Variable evmChainIdToChainSelector : gmap Z ChainDetails.
Variable visit : list (Z * ChainDetails).
Variable Getenv : string -> string.

Hypothesis visit_order : range_order visit evmChainIdToChainSelector.

Definition in_range (startChainID endChainID : Z) (kv : Z * ChainDetails)
  : bool :=
  (kv.1 >=? startChainID) && (kv.1 <=? endChainID).

Definition custom_details (chainID : Z) : ChainDetails :=
  {| ChainSelector := generateCustomChainSelector chainID;
     ChainName := generateCustomChainName chainID |}.

Lemma official_loop (startChainID endChainID : Z) :
  forall l chains,
    fold_left
      (fun chains kv =>
         if (kv.1 >=? startChainID) && (kv.1 <=? endChainID)
         then chains ++ [kv.2] else chains) l chains
    = chains ++ map snd (List.filter (in_range startChainID endChainID) l).
Proof.
  induction l as [| kv l IH]; intros chains; cbn [fold_left List.filter].
  - cbn. now rewrite app_nil_r.
  - rewrite IH. unfold in_range at 2.
    destruct ((kv.1 >=? startChainID) && (kv.1 <=? endChainID)); cbn [map].
    + now rewrite <- app_assoc.
    + reflexivity.
Qed.

Lemma custom_loop (endChainID : Z) (n : nat) :
  forall fuel chainID chains,
    0 <= chainID -> chainID + Z.of_nat n = endChainID + 1 ->
    endChainID < 2 ^ 64 - 1 -> (n < fuel)%nat ->
    customChainsInRange evmChainIdToChainSelector fuel chainID endChainID chains
    = Some (chains
            ++ map custom_details
                 (List.filter (isCustomChain evmChainIdToChainSelector)
                    (seqZ chainID (Z.of_nat n)))).
Proof.
  induction n as [| n IH]; intros fuel chainID chains Hlo Hn Hend Hfuel;
    (destruct fuel as [| fuel]; [lia |]); cbn [customChainsInRange].
  - destruct (Z.leb_spec chainID endChainID); [lia |].
    cbn. now rewrite app_nil_r.
  - destruct (Z.leb_spec chainID endChainID); [| lia].
    rewrite Z.mod_small by lia.
    rewrite IH by lia.
    rewrite (seqZ_cons chainID (Z.of_nat (S n))) by lia.
    replace (Z.pred (Z.of_nat (S n))) with (Z.of_nat n) by lia.
    replace (Z.succ chainID) with (chainID + 1) by lia.
    cbn [List.filter]. unfold isCustomChain.
    destruct (isInOfficialSelectors evmChainIdToChainSelector chainID);
      cbn [negb andb map]; [reflexivity |].
    now rewrite <- app_assoc.
Qed.

Lemma custom_loop_wraps (fuel : nat) :
  forall chainID chains,
    is_uint64 chainID ->
    customChainsInRange evmChainIdToChainSelector fuel chainID (2 ^ 64 - 1)
      chains = None.
Proof.
  induction fuel as [| fuel IH]; intros chainID chains Hu;
    cbn [customChainsInRange]; [reflexivity |].
  unfold is_uint64 in Hu.
  destruct (Z.leb_spec chainID (2 ^ 64 - 1)); [| lia].
  apply IH. unfold is_uint64. apply Z.mod_pos_bound. lia.
Qed.

Lemma official_in_range (startChainID endChainID : Z) (d : ChainDetails) :
  d ∈ map snd (List.filter (in_range startChainID endChainID) visit)
  <-> exists k, startChainID <= k <= endChainID
                /\ evmChainIdToChainSelector !! k = Some d.
Proof.
  rewrite list_elem_of_In, in_map_iff. split.
  - intros ([k d'] & <- & Hin). apply filter_In in Hin as [Hin Hr].
    exists k. unfold in_range in Hr. cbn in Hr. split; [lia |].
    apply (range_order_elem visit _ k d' visit_order).
    now apply list_elem_of_In.
  - intros (k & Hk & Hreg). exists (k, d). split; [reflexivity |].
    apply filter_In. split.
    + apply list_elem_of_In. now apply (range_order_elem visit _ k d visit_order).
    + unfold in_range. cbn. lia.
Qed.

End Listing.

Section Counting.

Variable evmChainIdToChainSelector : gmap Z ChainDetails.
Variable visit : list (Z * ChainDetails).

Hypothesis visit_order : range_order visit evmChainIdToChainSelector.

Lemma NoDup_fst_filter (p : Z * ChainDetails -> bool)
    (l : list (Z * ChainDetails)) :
  NoDup (l.*1) -> NoDup ((List.filter p l).*1).
Proof.
  induction l as [| a l IH]; cbn [List.filter]; [trivial |].
  rewrite fmap_cons, NoDup_cons. intros [Hfresh Hnd].
  destruct (p a); [| now apply IH].
  rewrite fmap_cons, NoDup_cons. split; [| now apply IH].
  intros Hin. apply Hfresh.
  apply list_elem_of_fmap in Hin as (x & -> & Hx).
  apply list_elem_of_fmap. exists x. split; [reflexivity |].
  apply list_elem_of_In. apply list_elem_of_In in Hx.
  now apply filter_In in Hx as [Hx _].
Qed.

Lemma isCustomChain_false_registered (chainID : Z) :
  negb (isCustomChain evmChainIdToChainSelector chainID) = true
  <-> is_Some (evmChainIdToChainSelector !! chainID).
Proof.
  unfold isCustomChain, isInOfficialSelectors.
  destruct (evmChainIdToChainSelector !! chainID) as [d |]; cbn.
  - split; [eauto | reflexivity].
  - split; [discriminate | intros [d Hd]; discriminate].
Qed.

(** As many registered chains are visited in a range as the range has
    registered chain ids. *)
Lemma registered_count (startChainID n : Z) :
  0 <= n ->
  length (List.filter (in_range startChainID (startChainID + n - 1)) visit)
  = length (List.filter
              (fun c => negb (isCustomChain evmChainIdToChainSelector c))
              (seqZ startChainID n)).
Proof.
  intros Hn.
  rewrite <- (length_fmap fst (List.filter _ visit)).
  apply Permutation_length, NoDup_Permutation.
  - apply NoDup_fst_filter, (range_order_NoDup visit _ visit_order).
  - apply NoDup_ListNoDup, List.NoDup_filter, NoDup_ListNoDup, NoDup_seqZ.
  - intros k. rewrite list_elem_of_fmap. split.
    + intros ([k' d] & -> & Hin). apply list_elem_of_In, filter_In in Hin.
      destruct Hin as [Hin Hr]. unfold in_range in Hr. cbn in Hr.
      apply list_elem_of_In, filter_In. split.
      * apply list_elem_of_In, elem_of_seqZ. cbn. lia.
      * apply isCustomChain_false_registered. exists d.
        apply (range_order_elem visit _ k' d visit_order).
        now apply list_elem_of_In.
    + intros Hin. apply list_elem_of_In, filter_In in Hin as [Hk Hreg].
      apply list_elem_of_In, elem_of_seqZ in Hk.
      apply isCustomChain_false_registered in Hreg as [d Hd].
      exists (k, d). split; [reflexivity |].
      apply list_elem_of_In, filter_In. split.
      * apply list_elem_of_In.
        now apply (range_order_elem visit _ k d visit_order).
      * unfold in_range. cbn. lia.
Qed.

End Counting.

(** With custom chains enabled, [ListAllChains] on a range that ends
    before the largest uint64 finishes and lists one entry for every
    chain id of the range: the registered details of a registered id,
    the generated details of any other. *)
Theorem ListAllChains_one_entry_per_chain_id
    (evmChainIdToChainSelector : gmap Z ChainDetails)
    (visit : list (Z * ChainDetails)) (Getenv : string -> string)
    (fuel : nat) (startChainID endChainID : Z) :
  range_order visit evmChainIdToChainSelector ->
  Getenv "ENABLE_CUSTOM_CHAINS" <> "false"%string ->
  0 <= startChainID <= endChainID -> endChainID < 2 ^ 64 - 1 ->
  endChainID - startChainID + 1 < Z.of_nat fuel ->
  exists chains,
    ListAllChains evmChainIdToChainSelector visit Getenv fuel
      startChainID endChainID = Some chains
    /\ length chains = Z.to_nat (endChainID - startChainID + 1)
    /\ forall d,
         d ∈ chains
         <-> exists k,
               startChainID <= k <= endChainID
               /\ (evmChainIdToChainSelector !! k = Some d
                   \/ (evmChainIdToChainSelector !! k = None
                       /\ d = {| ChainSelector := generateCustomChainSelector k;
                                 ChainName := generateCustomChainName k |})).
Proof.
  intros Hvisit Hon Hrange Hend Hfuel.
  set (n := endChainID - startChainID + 1).
  eexists. split; [| split].
  - unfold ListAllChains.
    rewrite customChainsEnabled_on by exact Hon.
    rewrite official_loop. cbn [app].
    apply (custom_loop _ endChainID (Z.to_nat n)); lia.
  - rewrite Z2Nat.id by lia.
    rewrite length_app, !length_map.
    replace endChainID with (startChainID + n - 1) at 1 by lia.
    rewrite (registered_count _ visit Hvisit) by lia.
    rewrite Nat.add_comm, List.filter_length, length_seqZ. reflexivity.
  - intros d. rewrite Z2Nat.id by lia.
    rewrite elem_of_app, (official_in_range _ visit Hvisit).
    split.
    + intros [(k & Hk & Hreg) | Hin].
      * exists k. split; [exact Hk | now left].
      * apply list_elem_of_In, in_map_iff in Hin as (k & <- & Hin).
        apply filter_In in Hin as [Hin Hcust].
        apply list_elem_of_In, elem_of_seqZ in Hin.
        exists k. split; [lia | right].
        split; [now apply isCustomChain_true_unregistered | reflexivity].
    + intros (k & Hk & [Hreg | [Hnone ->]]).
      * left. exists k. now split.
      * right. apply list_elem_of_In, in_map_iff.
        exists k. split; [reflexivity |].
        apply filter_In. split.
        -- apply list_elem_of_In, elem_of_seqZ. lia.
        -- now apply isCustomChain_unregistered.
Qed.

Lemma ListAllChains_one_entry_per_chain_id_witness :
  exists chains,
    ListAllChains mainnet_only (map_to_list mainnet_only) env_unset 4 1 3
    = Some chains
    /\ length chains = Z.to_nat (3 - 1 + 1)
    /\ forall d,
         d ∈ chains
         <-> exists k,
               1 <= k <= 3
               /\ (mainnet_only !! k = Some d
                   \/ (mainnet_only !! k = None
                       /\ d = {| ChainSelector := generateCustomChainSelector k;
                                 ChainName := generateCustomChainName k |})).
Proof.
  apply (ListAllChains_one_entry_per_chain_id mainnet_only
           (map_to_list mainnet_only) env_unset 4 1 3).
  - apply range_order_map_to_list.
  - discriminate.
  - lia.
  - lia.
  - lia.
Defined.

(** With custom chains enabled, [ListAllChains] up to the largest uint64
    never finishes: the counter wraps to zero instead of passing the end
    of the range. *)
Theorem ListAllChains_wraps_at_max
    (evmChainIdToChainSelector : gmap Z ChainDetails)
    (visit : list (Z * ChainDetails)) (Getenv : string -> string)
    (fuel : nat) (startChainID : Z) :
  is_uint64 startChainID ->
  Getenv "ENABLE_CUSTOM_CHAINS" <> "false"%string ->
  ListAllChains evmChainIdToChainSelector visit Getenv fuel
    startChainID (2 ^ 64 - 1) = None.
Proof.
  intros Hu Hon. unfold ListAllChains.
  rewrite customChainsEnabled_on by exact Hon.
  now apply custom_loop_wraps.
Qed.

Lemma ListAllChains_wraps_at_max_witness :
  ListAllChains mainnet_only (map_to_list mainnet_only) env_unset 1000
    (2 ^ 64 - 3) (2 ^ 64 - 1) = None.
Proof.
  apply (ListAllChains_wraps_at_max mainnet_only (map_to_list mainnet_only)
           env_unset 1000 (2 ^ 64 - 3)).
  - unfold is_uint64. lia.
  - discriminate.
Defined.

(** With custom chains disabled, [ListAllChains] finishes on every range
    and lists exactly the details of the registered chains whose id lies
    in the range. *)
Theorem ListAllChains_disabled
    (evmChainIdToChainSelector : gmap Z ChainDetails)
    (visit : list (Z * ChainDetails)) (Getenv : string -> string)
    (fuel : nat) (startChainID endChainID : Z) :
  range_order visit evmChainIdToChainSelector ->
  Getenv "ENABLE_CUSTOM_CHAINS" = "false"%string ->
  exists chains,
    ListAllChains evmChainIdToChainSelector visit Getenv fuel
      startChainID endChainID = Some chains
    /\ forall d,
         d ∈ chains
         <-> exists k, startChainID <= k <= endChainID
                       /\ evmChainIdToChainSelector !! k = Some d.
Proof.
  intros Hvisit Hoff. eexists. split.
  - unfold ListAllChains.
    rewrite (customChainsEnabled_off Getenv Hoff), official_loop.
    reflexivity.
  - intros d. cbn [app]. apply (official_in_range _ visit Hvisit).
Qed.

Lemma ListAllChains_disabled_witness :
  exists chains,
    ListAllChains mainnet_only (map_to_list mainnet_only)
      env_custom_chains_off 0 0 (2 ^ 64 - 1) = Some chains
    /\ forall d,
         d ∈ chains
         <-> exists k, 0 <= k <= 2 ^ 64 - 1 /\ mainnet_only !! k = Some d.
Proof.
  apply (ListAllChains_disabled mainnet_only (map_to_list mainnet_only)
           env_custom_chains_off 0 0 (2 ^ 64 - 1)).
  - apply range_order_map_to_list.
  - reflexivity.
Defined.

(** ** Chain details with custom support, and the way back *)

(** [GetChainDetailsByChainIDAndFamilyWithCustom] succeeds exactly when
    the family lookup succeeds, with its details, or when the family
    lookup fails on an EVM chain id that parses, is not registered, and
    custom chains are enabled, with the generated details. *)
Theorem WithCustom_succeeds_iff
    (evmChainIdToChainSelector : gmap Z ChainDetails)
    (Getenv : string -> string)
    (GetChainDetailsByChainIDAndFamily : string -> string -> result ChainDetails)
    (FamilyEVM chainID family : string) (details : ChainDetails) :
  (GetChainDetailsByChainIDAndFamilyWithCustom evmChainIdToChainSelector
     Getenv GetChainDetailsByChainIDAndFamily FamilyEVM chainID family).2
  = Ok details
  <-> GetChainDetailsByChainIDAndFamily chainID family = Ok details
      \/ ((exists err, GetChainDetailsByChainIDAndFamily chainID family
                       = Err err)
          /\ family = FamilyEVM
          /\ Getenv "ENABLE_CUSTOM_CHAINS" <> "false"%string
          /\ exists evmChainId,
               ParseUint chainID = Some evmChainId
               /\ evmChainIdToChainSelector !! evmChainId = None
               /\ details
                  = {| ChainSelector := generateCustomChainSelector evmChainId;
                       ChainName := generateCustomChainName evmChainId |}).
Proof.
  unfold GetChainDetailsByChainIDAndFamilyWithCustom, customChainsEnabled,
    isCustomChain, isInOfficialSelectors.
  destruct (GetChainDetailsByChainIDAndFamily chainID family) as [d | err].
  { cbn. split; [intros [= ->]; now left |].
    intros [[= ->] | ([err Herr] & _)]; [reflexivity | discriminate]. }
  destruct (String.eqb_spec family FamilyEVM) as [-> | Hfam].
  2: { cbn. split; [discriminate |].
       intros [H | (_ & Hf & _)]; [discriminate | contradiction]. }
  destruct (ParseUint chainID) as [id |].
  2: { cbn. split; [discriminate |].
       intros [H | (_ & _ & _ & id & Hid & _)]; discriminate. }
  destruct (evmChainIdToChainSelector !! id) as [d |] eqn:Hreg; cbn [negb].
  { cbn. split; [discriminate |].
    intros [H | (_ & _ & _ & id' & [= <-] & Hnone & _)];
      [discriminate | congruence]. }
  destruct (String.eqb_spec (Getenv "ENABLE_CUSTOM_CHAINS") "false")
    as [Hoff | Hon]; cbn.
  - split; [discriminate |].
    intros [H | (_ & _ & Hon & _)]; [discriminate | contradiction].
  - split.
    + intros [= <-]. right. split; [eauto |]. repeat split; [exact Hon |].
      exists id. now repeat split.
    + intros [H | (_ & _ & _ & id' & [= <-] & _ & ->)];
        [discriminate | reflexivity].
Qed.

(** The details generated for an unregistered chain id of the direct
    range lead back to it: the reverse lookup with custom support, when
    the family-agnostic one fails, returns the chain id in canonical
    decimal, whatever numeral was given. *)
Theorem custom_details_roundtrip
    (evmChainIdToChainSelector : gmap Z ChainDetails)
    (Getenv : string -> string)
    (GetChainDetailsByChainIDAndFamily : string -> string -> result ChainDetails)
    (GetChainIDFromSelector : Z -> result string)
    (FamilyEVM chainID : string) (evmChainId : Z) (err err' : error) :
  Getenv "ENABLE_CUSTOM_CHAINS" <> "false"%string ->
  ParseUint chainID = Some evmChainId ->
  0 <= evmChainId <= 2 ^ 60 - 1 ->
  evmChainIdToChainSelector !! evmChainId = None ->
  GetChainDetailsByChainIDAndFamily chainID FamilyEVM = Err err ->
  GetChainIDFromSelector (generateCustomChainSelector evmChainId) = Err err' ->
  exists details,
    (GetChainDetailsByChainIDAndFamilyWithCustom evmChainIdToChainSelector
       Getenv GetChainDetailsByChainIDAndFamily FamilyEVM chainID FamilyEVM).2
    = Ok details
    /\ ChainName details = generateCustomChainName evmChainId
    /\ GetChainIDFromSelectorWithCustom GetChainIDFromSelector
         (ChainSelector details)
       = Ok (FormatUint evmChainId).
Proof.
  intros Hon Hparse Hc Hnone Hstd Hrev.
  exists {| ChainSelector := generateCustomChainSelector evmChainId;
            ChainName := generateCustomChainName evmChainId |}.
  split; [| split; [reflexivity |]].
  - unfold GetChainDetailsByChainIDAndFamilyWithCustom.
    rewrite Hstd, String.eqb_refl, Hparse.
    now rewrite isCustomChain_unregistered, customChainsEnabled_on.
  - cbn [ChainSelector]. unfold GetChainIDFromSelectorWithCustom.
    rewrite Hrev.
    assert (Htag : isCustomSelector (generateCustomChainSelector evmChainId)
                   = true).
    { rewrite generate_direct by exact Hc. apply isCustomSelector_tagged. lia. }
    rewrite Htag, extract_generate by (unfold is_uint64; lia).
    rewrite generate_direct by exact Hc. do 2 f_equal. lia.
Qed.

Lemma custom_details_roundtrip_witness :
  exists details,
    (GetChainDetailsByChainIDAndFamilyWithCustom mainnet_only env_unset
       lookup_unknown "evm" "0009388201" "evm").2 = Ok details
    /\ ChainName details = generateCustomChainName 9388201
    /\ GetChainIDFromSelectorWithCustom
         (fun _ => Err (ErrExternal "unknown chain selector"))
         (ChainSelector details)
       = Ok (FormatUint 9388201).
Proof.
  apply (custom_details_roundtrip mainnet_only env_unset lookup_unknown
           (fun _ => Err (ErrExternal "unknown chain selector"))
           "evm" "0009388201" 9388201
           (ErrExternal "unknown chain id 0009388201 for evm")
           (ErrExternal "unknown chain selector")).
  - discriminate.
  - reflexivity.
  - lia.
  - reflexivity.
  - reflexivity.
  - reflexivity.
Defined.

(** [RegisterCustomChain] does not consult the registry: on a registered
    chain id whose official selector is untagged it returns a selector
    other than the one [SelectorFromChainId] resolves. *)
Theorem RegisterCustomChain_ignores_registry
    (evmChainIdToChainSelector : gmap Z ChainDetails)
    (Getenv : string -> string) (chainID : Z) (name : string)
    (details : ChainDetails) :
  is_uint64 chainID ->
  evmChainIdToChainSelector !! chainID = Some details ->
  isCustomSelector (ChainSelector details) = false ->
  (SelectorFromChainId evmChainIdToChainSelector Getenv chainID).2
  = Ok (ChainSelector details)
  /\ (RegisterCustomChain chainID name).2 <> ChainSelector details.
Proof.
  intros [Hlo _] Hreg Huntagged. split.
  - unfold SelectorFromChainId. now rewrite Hreg.
  - cbn. intros Heq.
    destruct (generate_shape chainID Hlo) as (p & Hp & Hgen).
    rewrite <- Heq, Hgen, isCustomSelector_tagged in Huntagged by exact Hp.
    discriminate.
Qed.

Lemma RegisterCustomChain_ignores_registry_witness :
  (SelectorFromChainId mainnet_only env_unset 1).2 = Ok 5009297550715157269
  /\ (RegisterCustomChain 1 "ethereum-mainnet").2 <> 5009297550715157269.
Proof.
  apply (RegisterCustomChain_ignores_registry mainnet_only env_unset 1
           "ethereum-mainnet"
           {| ChainSelector := 5009297550715157269;
              ChainName := "ethereum-mainnet" |}).
  - unfold is_uint64. lia.
  - reflexivity.
  - reflexivity.
Defined.

(** ** Building the registry *)

Section Loading.

Context {A : Type}.

Lemma fold_insert_union (l : list (Z * A)) :
  forall m0 : gmap Z A,
    fold_left (fun out kv => <[kv.1 := kv.2]> out) l m0
    = list_to_map (reverse l) ∪ m0.
Proof.
  induction l as [| [k v] l IH]; intros m0; cbn [fold_left].
  - cbn. now rewrite (left_id_L ∅ (∪)).
  - rewrite IH, reverse_cons, list_to_map_app. cbn [list_to_map foldr fst snd].
    rewrite <- (assoc_L (∪)). f_equal.
    rewrite insert_empty. apply insert_union_singleton_l.
Qed.

Lemma fold_insert_range (visit : list (Z * A)) (m m0 : gmap Z A) :
  range_order visit m ->
  fold_left (fun out kv => <[kv.1 := kv.2]> out) visit m0 = m ∪ m0.
Proof.
  intros Hvisit. rewrite fold_insert_union. f_equal.
  rewrite <- (list_to_map_to_list m). symmetry.
  apply list_to_map_proper; [apply NoDup_fst_map_to_list |].
  unfold range_order in Hvisit. now rewrite reverse_Permutation, Hvisit.
Qed.

End Loading.

(** The registry holds every chain id of either configuration file; where
    both have a chain id, the entry of the test file wins. *)
Theorem loadAllEVMSelectors_lookup
    (selectors testSelectors : gmap Z ChainDetails)
    (evmSelectorsMap evmTestSelectorsMap : list (Z * ChainDetails))
    (chainID : Z) :
  range_order evmSelectorsMap selectors ->
  range_order evmTestSelectorsMap testSelectors ->
  loadAllEVMSelectors evmSelectorsMap evmTestSelectorsMap !! chainID
  = match testSelectors !! chainID with
    | Some details => Some details
    | None => selectors !! chainID
    end.
Proof.
  intros Hmain Htest. unfold loadAllEVMSelectors.
  rewrite (fold_insert_range evmSelectorsMap selectors ∅ Hmain).
  rewrite (fold_insert_range evmTestSelectorsMap testSelectors _ Htest).
  rewrite (right_id_L ∅ (∪)), lookup_union.
  destruct (testSelectors !! chainID), (selectors !! chainID); reflexivity.
Qed.

Lemma loadAllEVMSelectors_lookup_witness :
  loadAllEVMSelectors (map_to_list mainnet_only)
    (map_to_list ({[ 1 := {| ChainSelector := 7; ChainName := "local" |} ]}
                  : gmap Z ChainDetails)) !! 1
  = Some {| ChainSelector := 7; ChainName := "local" |}.
Proof.
  rewrite (loadAllEVMSelectors_lookup mainnet_only
             {[ 1 := {| ChainSelector := 7; ChainName := "local" |} ]}
             _ _ 1 (range_order_map_to_list _) (range_order_map_to_list _)).
  reflexivity.
Defined.

(** The copy that [EvmChainIdToChainSelector] returns has exactly the
    registered chain ids, each with the selector of its entry. *)
Theorem EvmChainIdToChainSelector_lookup
    (evmChainIdToChainSelector : gmap Z ChainDetails)
    (visit : list (Z * ChainDetails)) (chainID : Z) :
  range_order visit evmChainIdToChainSelector ->
  EvmChainIdToChainSelector visit !! chainID
  = ChainSelector <$> evmChainIdToChainSelector !! chainID.
Proof.
  intros Hvisit. unfold EvmChainIdToChainSelector.
  replace (fold_left (fun copyMap kv => <[kv.1 := ChainSelector kv.2]> copyMap)
             visit ∅)
    with (fold_left (fun out (kv : Z * Z) => <[kv.1 := kv.2]> out)
            (prod_map id ChainSelector <$> visit) (∅ : gmap Z Z)).
  - rewrite fold_insert_union, (right_id_L ∅ (∪)).
    rewrite <- fmap_reverse, list_to_map_fmap, lookup_fmap. f_equal.
    rewrite <- (list_to_map_to_list evmChainIdToChainSelector). f_equal.
    symmetry. apply list_to_map_proper; [apply NoDup_fst_map_to_list |].
    unfold range_order in Hvisit. now rewrite reverse_Permutation, Hvisit.
  - clear Hvisit. generalize (∅ : gmap Z Z).
    induction visit as [| kv l IH]; intros m0; cbn; [reflexivity |].
    apply IH.
Qed.

Lemma EvmChainIdToChainSelector_lookup_witness :
  EvmChainIdToChainSelector (map_to_list mainnet_only) !! 1
  = ChainSelector <$> mainnet_only !! 1.
Proof.
  apply (EvmChainIdToChainSelector_lookup mainnet_only
           (map_to_list mainnet_only) 1 (range_order_map_to_list _)).
Defined.

Lemma TestChainIds_keys (l : list (Z * ChainDetails)) :
  forall chainIds,
    fold_left (fun chainIds kv => chainIds ++ [kv.1]) l chainIds
    = chainIds ++ l.*1.
Proof.
  induction l as [| kv l IH]; intros chainIds; cbn [fold_left].
  - now rewrite app_nil_r.
  - rewrite IH, fmap_cons, <- app_assoc. reflexivity.
Qed.

(** [TestChainIds] returns every chain id of the test selectors, each
    exactly once, and nothing else. *)
Theorem TestChainIds_each_once
    (testSelectors : gmap Z ChainDetails)
    (evmTestSelectorsMap : list (Z * ChainDetails)) :
  range_order evmTestSelectorsMap testSelectors ->
  NoDup (TestChainIds evmTestSelectorsMap)
  /\ forall k, k ∈ TestChainIds evmTestSelectorsMap
               <-> is_Some (testSelectors !! k).
Proof.
  intros Hvisit. unfold TestChainIds. rewrite TestChainIds_keys. cbn [app].
  split; [now apply (range_order_NoDup _ testSelectors) |].
  intros k. rewrite list_elem_of_fmap. split.
  - intros ([k' d] & -> & Hin). exists d.
    now apply (range_order_elem evmTestSelectorsMap testSelectors k' d Hvisit).
  - intros [d Hd]. exists (k, d). split; [reflexivity |].
    now apply (range_order_elem evmTestSelectorsMap testSelectors k d Hvisit).
Qed.

Lemma TestChainIds_each_once_witness :
  NoDup (TestChainIds (map_to_list mainnet_only))
  /\ forall k, k ∈ TestChainIds (map_to_list mainnet_only)
               <-> is_Some (mainnet_only !! k).
Proof.
  apply (TestChainIds_each_once mainnet_only (map_to_list mainnet_only)).
  apply range_order_map_to_list.
Defined.
